(** * api_yamdb: the HTTP layer of [api/views.py]

    A shallow embedding of the view classes of [api_yamdb/api/views.py]
    together with the parts of Django and of Django REST framework they rely
    on: verb dispatch of a view set, the two permission checks, scoped
    lookups ([get_object_or_404]), [Serializer.save], [annotate]/[Avg] and
    [order_by].

    The modules [permissions.py], [serializers.py] and [reviews/models.py]
    are imported by [views.py]; the definitions that stand for them are
    marked as such. *)

From Stdlib Require Import QArith Qcanon SpecFloat.
From stdpp Require Import base numbers list strings pretty gmap sorting.

Local Open Scope string_scope.
#[local] Set Warnings "-clear-no-such-hyp".

(** ** HTTP verbs and statuses *)

Inductive Method := GET | POST | PUT | PATCH | DELETE | HEAD | OPTIONS | TRACE.

Global Instance Method_eq_dec : EqDecision Method.
Proof. solve_decision. Defined.

(** [request.method.lower()] *)
Definition lower (m : Method) : string :=
  match m with
  | GET => "get" | POST => "post" | PUT => "put" | PATCH => "patch"
  | DELETE => "delete" | HEAD => "head" | OPTIONS => "options"
  | TRACE => "trace"
  end.

(** [rest_framework.permissions.SAFE_METHODS] *)
Definition SAFE_METHODS : list Method := [GET; HEAD; OPTIONS].

Definition is_safe (m : Method) : bool := bool_decide (m ∈ SAFE_METHODS).

Definition HTTP_200_OK : nat := 200.

(** The exceptions a handler can end with. The first four are turned into
    responses by the framework; the others are uncaught and end as a server
    error. *)
Inductive Exn :=
  | Http404
  | ValidationError
  | PermissionDenied
  | MethodNotAllowed
  | DoesNotExist
  | MultipleObjectsReturned
  | KeyError
  | ValueError
  | IntegrityError.

Global Instance Exn_eq_dec : EqDecision Exn.
Proof. solve_decision. Defined.

Inductive Result (A : Type) :=
  | Ok (a : A)
  | Raise (e : Exn).
Arguments Ok {A} a.
Arguments Raise {A} e.

Global Instance Result_ret : MRet Result := λ A a, Ok a.

Global Instance Result_bind : MBind Result := λ A B k r,
  match r with
  | Ok a => k a
  | Raise e => Raise e
  end.

(** ** The data model

    Modelled from the spec: [reviews/models.py] is imported by the views but
    is not part of the sources at hand; the records carry the fields the
    views name ([author], [title], [review], [rating], [username], [email],
    [confirmation_code]) and the roles of section 3 of the specification. *)

Inductive Role := regular | moderator | admin.

Global Instance Role_eq_dec : EqDecision Role.
Proof. solve_decision. Defined.

Record User := {
  user_id : nat;
  username : string;
  email : string;
  role : Role;
  confirmation_code : string
}.

Record Title := {
  title_id : nat;
  title_name : string
}.

Record Review := {
  review_id : nat;
  review_title : nat;
  review_author : nat;
  review_text : string;
  review_rating : Z
}.

Record Comment := {
  comment_id : nat;
  comment_review : nat;
  comment_author : nat;
  comment_text : string
}.

Record Mail := {
  mail_subject : string;
  mail_message : string;
  mail_from : string;
  mail_to : list string
}.

Global Instance User_eq_dec : EqDecision User.
Proof. solve_decision. Defined.
Global Instance Title_eq_dec : EqDecision Title.
Proof. solve_decision. Defined.
Global Instance Review_eq_dec : EqDecision Review.
Proof. solve_decision. Defined.
Global Instance Comment_eq_dec : EqDecision Comment.
Proof. solve_decision. Defined.

(** The relational store, one list per table, and the outbox of the mail
    backend. *)
Record Store := {
  users : list User;
  titles : list Title;
  reviews : list Review;
  comments : list Comment;
  outbox : list Mail
}.

(** The objects a detail route resolves to. *)
Inductive Object :=
  | ReviewObj (r : Review)
  | CommentObj (c : Comment)
  | TitleObj (t : Title)
  | SlugObj (slug : string)
  | UserObj (u : User).

(** [obj.author], for the objects that have one. *)
Definition author_of (o : Object) : option nat :=
  match o with
  | ReviewObj r => Some (review_author r)
  | CommentObj c => Some (comment_author c)
  | _ => None
  end.

(** Values of request bodies and of keyword arguments. *)
Inductive Value :=
  | VNone
  | VStr (s : string)
  | VInt (n : Z)
  | VUser (u : User)
  | VTitle (t : Title)
  | VReview (r : Review)
  | VToken (uid : nat).

Global Instance Value_eq_dec : EqDecision Value.
Proof. solve_decision. Defined.

(** A request: the verb, [request.user] ([None] is the anonymous user) and
    [request.data]. *)
Record Request := {
  method : Method;
  user : option User;
  data : gmap string Value
}.

Record Response := {
  status : nat;
  body : gmap string Value
}.

(** ** View sets: mixins, routes and dispatch *)

Inductive Action :=
  | list_action | create | retrieve | update | partial_update | destroy
  | metadata.

Global Instance Action_eq_dec : EqDecision Action.
Proof. solve_decision. Defined.

Inductive Mixin :=
  | CreateModelMixin
  | ListModelMixin
  | RetrieveModelMixin
  | UpdateModelMixin
  | DestroyModelMixin.

(** The handler methods each mixin of [rest_framework.mixins] defines. *)
Definition mixin_actions (x : Mixin) : list Action :=
  match x with
  | CreateModelMixin => [create]
  | ListModelMixin => [list_action]
  | RetrieveModelMixin => [retrieve]
  | UpdateModelMixin => [update; partial_update]
  | DestroyModelMixin => [destroy]
  end.

(** [viewsets.ModelViewSet] *)
Definition ModelViewSet : list Mixin :=
  [CreateModelMixin; RetrieveModelMixin; UpdateModelMixin;
   DestroyModelMixin; ListModelMixin].

(** [django.views.View.http_method_names], the default of every view. *)
Definition View_http_method_names : list string :=
  ["get"; "post"; "put"; "patch"; "delete"; "head"; "options"; "trace"].

(** The two routes a router registers for a view set: the collection
    ([/prefix/]) and one object ([/prefix/{lookup}/]). *)
Inductive Route := ListRoute | DetailRoute.

(** The verb-to-action table of the routers of the framework. *)
Definition route_mapping (k : Route) (m : Method) : option Action :=
  match k, m with
  | ListRoute, GET => Some list_action
  | ListRoute, POST => Some create
  | DetailRoute, GET => Some retrieve
  | DetailRoute, PUT => Some update
  | DetailRoute, PATCH => Some partial_update
  | DetailRoute, DELETE => Some destroy
  | _, _ => None
  end.

Inductive PermissionClass :=
  | AllowAny
  | AdminLevelPermission
  | UserAccessPermission
  | AdminLevelOrReadOnlyPermission
  | IsOwnerAdminModeratorOrReadOnly.

Record ViewSet := {
  vs_bases : list Mixin;
  vs_http_method_names : list string;
  vs_permission_classes : list PermissionClass;
  vs_lookup_field : string
}.

Definition actions (v : ViewSet) : list Action :=
  vs_bases v ≫= mixin_actions.

(** [SimpleRouter.get_method_map]: of the verbs a route maps, those whose
    action the class defines. *)
Definition method_map (v : ViewSet) (k : Route) (m : Method) : option Action :=
  a ← route_mapping k m;
  if bool_decide (a ∈ actions v) then Some a else None.

(** [SimpleRouter.get_urls] skips a route whose method map is empty: the
    route is registered only when the class defines one of its actions. *)
Definition registered (v : ViewSet) (k : Route) : bool :=
  bool_decide
    (Exists (λ m, is_Some (method_map v k m))
            [GET; POST; PUT; PATCH; DELETE; HEAD; OPTIONS; TRACE]).

(** The method a verb is bound to on a route: on a registered route the
    verbs of the method map, [head] following [get], and [options], which
    the view answers itself; nothing on a route that is not registered. *)
Definition bound (v : ViewSet) (k : Route) (m : Method) : option Action :=
  if registered v k then
    match m with
    | OPTIONS => Some metadata
    | HEAD => method_map v k GET
    | _ => method_map v k m
    end
  else None.

(** The handler [dispatch] selects: the bound method when the lowered verb
    is one of [http_method_names], and [http_method_not_allowed] ([None])
    otherwise. *)
Definition handler (v : ViewSet) (k : Route) (m : Method) : option Action :=
  if bool_decide (lower m ∈ vs_http_method_names v) then bound v k m
  else None.

(** ** The view sets of [views.py] *)

(** [class ListCreateDestroyViewSet(GenericViewSet, CreateModelMixin,
    ListModelMixin, DestroyModelMixin)] *)
Definition ListCreateDestroyViewSet : list Mixin :=
  [CreateModelMixin; ListModelMixin; DestroyModelMixin].

Module UserViewSet.
Definition permission_classes := [AdminLevelPermission].
Definition lookup_field := "username".
Definition view : ViewSet :=
  {| vs_bases := ModelViewSet;
     vs_http_method_names := View_http_method_names;
     vs_permission_classes := permission_classes;
     vs_lookup_field := lookup_field |}.
End UserViewSet.

Module GetPersonalInfoViewSet.
Definition permission_classes := [UserAccessPermission].
Definition view : ViewSet :=
  {| vs_bases := [UpdateModelMixin; RetrieveModelMixin];
     vs_http_method_names := View_http_method_names;
     vs_permission_classes := permission_classes;
     vs_lookup_field := "pk" |}.
End GetPersonalInfoViewSet.

Module CategoryViewSet.
Definition lookup_field := "slug".
Definition permission_classes := [AdminLevelOrReadOnlyPermission].
Definition view : ViewSet :=
  {| vs_bases := ListCreateDestroyViewSet;
     vs_http_method_names := View_http_method_names;
     vs_permission_classes := permission_classes;
     vs_lookup_field := lookup_field |}.
End CategoryViewSet.

Module GenreViewSet.
Definition lookup_field := "slug".
Definition permission_classes := [AdminLevelOrReadOnlyPermission].
Definition view : ViewSet :=
  {| vs_bases := ListCreateDestroyViewSet;
     vs_http_method_names := View_http_method_names;
     vs_permission_classes := permission_classes;
     vs_lookup_field := lookup_field |}.
End GenreViewSet.

(** ** Permission classes

    Modelled from the spec: [api/permissions.py] is imported by the views
    but is not part of the sources at hand. The four classes follow the
    rules of section 4.1 of the specification for the resources the views
    attach them to: reads are open (rule 1), a create on a review or a
    comment needs an authenticated requester (rule 2), an update or a delete
    of one needs an admin, a moderator or the author (rule 3), every other
    write needs an admin (rule 4), and the personal-info endpoint needs an
    authenticated requester who is the object. *)

Definition is_authenticated (req : Request) : bool :=
  match user req with
  | Some _ => true
  | None => false
  end.

Definition has_role (r : Role) (req : Request) : bool :=
  match user req with
  | Some u => bool_decide (role u = r)
  | None => false
  end.

(** [obj.author == request.user] *)
Definition is_author (req : Request) (o : Object) : bool :=
  match user req, author_of o with
  | Some u, Some a => bool_decide (user_id u = a)
  | _, _ => false
  end.

Definition has_permission (p : PermissionClass) (req : Request) : bool :=
  match p with
  | AllowAny => true
  | AdminLevelPermission => is_safe (method req) || has_role admin req
  | AdminLevelOrReadOnlyPermission =>
      is_safe (method req) || has_role admin req
  | IsOwnerAdminModeratorOrReadOnly =>
      is_safe (method req) || is_authenticated req
  | UserAccessPermission => is_authenticated req
  end.

Definition has_object_permission
    (p : PermissionClass) (req : Request) (o : Object) : bool :=
  match p with
  | IsOwnerAdminModeratorOrReadOnly =>
      is_safe (method req) || has_role admin req || has_role moderator req
      || is_author req o
  | UserAccessPermission =>
      match user req, o with
      | Some u, UserObj target => bool_decide (user_id u = user_id target)
      | _, _ => false
      end
  | _ => true
  end.

(** [APIView.check_permissions] and [APIView.check_object_permissions]:
    every class of [permission_classes] has to agree. *)
Definition check_permissions (v : ViewSet) (req : Request) : bool :=
  forallb (λ p, has_permission p req) (vs_permission_classes v).

Definition check_object_permissions
    (v : ViewSet) (req : Request) (o : Object) : bool :=
  forallb (λ p, has_object_permission p req o) (vs_permission_classes v).

(** The actions whose mixin method calls [get_object], which resolves the
    object and then checks the object permissions. *)
Definition uses_get_object (a : Action) : bool :=
  match a with
  | retrieve | update | partial_update | destroy => true
  | _ => false
  end.

(** The access decision for an action of a view set: the request-level
    check of [initial], and the object-level check when the action resolves
    an object. *)
Definition allowed
    (v : ViewSet) (req : Request) (a : Action) (o : Object) : bool :=
  check_permissions v req
  && (if uses_get_object a then check_object_permissions v req o else true).

(** ** Lookups *)

(** The text a value stands for when the ORM compares it with a text
    column: a string is itself, a number is its decimal writing
    ([str(value)]), and null matches no row. *)
Definition text_of (v : Value) : option string :=
  match v with
  | VStr s => Some s
  | VInt n => Some (pretty n)
  | _ => None
  end.

(** [Model.objects.get] with keyword filters *)
Definition objects_get {A} (P : A → Prop) `{!∀ x, Decision (P x)}
    (rows : list A) : Result A :=
  match filter P rows with
  | [] => Raise DoesNotExist
  | [x] => Ok x
  | _ => Raise MultipleObjectsReturned
  end.

(** [django.shortcuts.get_object_or_404]: only [DoesNotExist] becomes a
    not-found error. *)
Definition get_object_or_404 {A} (P : A → Prop) `{!∀ x, Decision (P x)}
    (rows : list A) : Result A :=
  match objects_get P rows with
  | Raise DoesNotExist => Raise Http404
  | r => r
  end.

(** ** Aggregation and ordering of the title list *)

Definition sum_Z (xs : list Z) : Z := foldr Z.add 0%Z xs.

(** Double-precision floats (IEEE 754 binary64), the type of the value
    [Avg] gives for an integer column. *)
Definition float := spec_float.

(** The double nearest to an integer. *)
Definition float_of_Z (n : Z) : float := binary_normalize 53 1024 n 0 false.

(** Division of doubles, rounded to nearest. *)
Definition float_div (x y : float) : float := SFdiv 53 1024 x y.

(** [django.db.models.Avg] on an integer column: SQL [AVG], a double, the
    sum of the non-null values divided by their number in floating point,
    and null when there is none. *)
Definition Avg (xs : list (option Z)) : option float :=
  match omap id xs with
  | [] => None
  | vs => Some (float_div (float_of_Z (sum_Z vs))
                          (float_of_Z (Z.of_nat (length vs))))
  end.

(** The rows one title contributes to
    [title LEFT OUTER JOIN review ON review.title_id = title.id]: one per
    review of the title, and a single row with a null review when it has
    none. *)
Definition joined_rows (rs : list Review) (t : Title)
    : list (Title * option Review) :=
  match filter (λ r, review_title r = title_id t) rs with
  | [] => [(t, None)]
  | m => (λ r, (t, Some r)) <$> m
  end.

(** The join [annotate] adds for ['reviews__rating']. *)
Definition left_join (ts : list Title) (rs : list Review)
    : list (Title * option Review) :=
  ts ≫= joined_rows rs.

(** The column [reviews__rating] of a joined row, null on a title without
    reviews. *)
Definition row_rating (row : Title * option Review) : option Z :=
  review_rating <$> row.2.

(** [Title.objects.annotate(rating=Avg('reviews__rating'))]: the joined rows
    grouped by the id of the title, each group aggregated. *)
Definition annotate_rating (ts : list Title) (rs : list Review)
    : list (Title * option float) :=
  (λ t,
     (t, Avg (row_rating <$>
              filter (λ row, title_id row.1 = title_id t)
                     (left_join ts rs)))) <$> ts.

(** The order of [order_by('-id')]. *)
Definition desc_id (a b : Title * option float) : Prop :=
  (title_id b.1 ≤ title_id a.1)%nat.

Global Instance desc_id_dec : RelDecision desc_id.
Proof. intros a b. unfold desc_id. apply _. Defined.

Definition order_by_desc_id (rows : list (Title * option float))
    : list (Title * option float) :=
  merge_sort desc_id rows.

Module TitleViewSet.
(** [Title.objects.annotate(rating=Avg('reviews__rating')).order_by('-id')] *)
Definition queryset (st : Store) : list (Title * option float) :=
  order_by_desc_id (annotate_rating (titles st) (reviews st)).
Definition permission_classes := [AdminLevelOrReadOnlyPermission].
Definition view : ViewSet :=
  {| vs_bases := ModelViewSet;
     vs_http_method_names := View_http_method_names;
     vs_permission_classes := permission_classes;
     vs_lookup_field := "pk" |}.
(** The [list] action: [filter_queryset] keeps the rows [TitleFilter]
    (from [api/filters.py], a parameter here) accepts. *)
Definition list (TitleFilter : Title → bool) (st : Store)
    : list (Title * option float) :=
  filter (λ row, TitleFilter row.1 = true) (queryset st).
End TitleViewSet.

(** ** Serializers and creation of rows *)

Definition add_review (r : Review) (st : Store) : Store :=
  {| users := users st; titles := titles st;
     reviews := reviews st ++ [r]; comments := comments st;
     outbox := outbox st |}.

Definition add_comment (c : Comment) (st : Store) : Store :=
  {| users := users st; titles := titles st;
     reviews := reviews st; comments := comments st ++ [c];
     outbox := outbox st |}.

Definition set_users (us : list User) (st : Store) : Store :=
  {| users := us; titles := titles st;
     reviews := reviews st; comments := comments st;
     outbox := outbox st |}.

(** [django.core.mail.send_mail] *)
Definition send_mail (subject message from_email : string)
    (recipient_list : list string) (st : Store) : Store :=
  {| users := users st; titles := titles st;
     reviews := reviews st; comments := comments st;
     outbox := outbox st ++
       [{| mail_subject := subject; mail_message := message;
           mail_from := from_email; mail_to := recipient_list |}] |}.

(** The id a new row gets: a value of the sequence of the table that no row
    has, the largest id plus one on a table from which no later row was
    deleted. *)
Definition next_id (ids : list nat) : nat := S (max_list ids).

(** Modelled from the spec: [Review.objects.create] of [reviews/models.py],
    a review of one title by one authoring user with a text and a rating. *)
Definition Review_objects_create (fields : gmap string Value) (st : Store)
    : Result (Review * Store) :=
  match fields !! "author", fields !! "title" with
  | Some (VUser u), Some (VTitle t) =>
      match fields !! "text", fields !! "rating" with
      | Some (VStr s), Some (VInt n) =>
          let r := {| review_id := next_id (review_id <$> reviews st);
                      review_title := title_id t;
                      review_author := user_id u;
                      review_text := s;
                      review_rating := n |} in
          Ok (r, add_review r st)
      | _, _ => Raise IntegrityError
      end
  | _, _ => Raise ValueError
  end.

(** Modelled from the spec: [Comment.objects.create] of [reviews/models.py],
    a comment on one review by one authoring user. *)
Definition Comment_objects_create (fields : gmap string Value) (st : Store)
    : Result (Comment * Store) :=
  match fields !! "author", fields !! "review" with
  | Some (VUser u), Some (VReview r) =>
      match fields !! "text" with
      | Some (VStr s) =>
          let c := {| comment_id := next_id (comment_id <$> comments st);
                      comment_review := review_id r;
                      comment_author := user_id u;
                      comment_text := s |} in
          Ok (c, add_comment c st)
      | _ => Raise IntegrityError
      end
  | _, _ => Raise ValueError
  end.

(** [BaseSerializer.save] with keyword arguments and no instance: the
    keyword arguments are laid over the validated data
    ([{**self.validated_data, **kwargs}]) and the result goes to [create]. *)
Definition Serializer_save {A}
    (create : gmap string Value → Store → Result (A * Store))
    (validated_data kwargs : gmap string Value) (st : Store)
    : Result (A * Store) :=
  create (kwargs ∪ validated_data) st.

(** In the view sets below, [kwargs] are the keyword arguments of the path
    with the ids as the numbers the ORM compares with the id columns;
    [kwargs !! key] is [self.kwargs.get(key)], [None] when the key is
    missing. *)

(** [self.request.user] as a keyword argument. *)
Definition user_value (u : option User) : Value :=
  match u with
  | Some u => VUser u
  | None => VNone
  end.

Module ReviewViewSet.
Definition permission_classes := [IsOwnerAdminModeratorOrReadOnly].
Definition http_method_names := ["get"; "post"; "patch"; "delete"].
Definition view : ViewSet :=
  {| vs_bases := ModelViewSet;
     vs_http_method_names := http_method_names;
     vs_permission_classes := permission_classes;
     vs_lookup_field := "pk" |}.

Definition get_queryset (kwargs : gmap string nat) (st : Store)
    : Result (list Review) :=
  title ← get_object_or_404
             (λ t, kwargs !! "title_id" = Some (title_id t)) (titles st);
  mret (filter (λ r, review_title r = title_id title) (reviews st)).

Definition perform_create (kwargs : gmap string nat) (request : Request)
    (validated_data : gmap string Value) (st : Store)
    : Result (Review * Store) :=
  title ← get_object_or_404
             (λ t, kwargs !! "title_id" = Some (title_id t)) (titles st);
  Serializer_save Review_objects_create validated_data
    {[ "author" := user_value (user request); "title" := VTitle title ]}
    st.
End ReviewViewSet.

Module CommentViewSet.
Definition permission_classes := [IsOwnerAdminModeratorOrReadOnly].
Definition http_method_names := ["get"; "post"; "patch"; "delete"].
Definition view : ViewSet :=
  {| vs_bases := ModelViewSet;
     vs_http_method_names := http_method_names;
     vs_permission_classes := permission_classes;
     vs_lookup_field := "pk" |}.

(** The filter [id=review_id, title=title_id] of both lookups. *)
Definition scoped (kwargs : gmap string nat) (r : Review) : Prop :=
  kwargs !! "review_id" = Some (review_id r)
  ∧ kwargs !! "title_id" = Some (review_title r).

Global Instance scoped_dec kwargs r : Decision (scoped kwargs r).
Proof. unfold scoped. apply _. Defined.

Definition get_queryset (kwargs : gmap string nat) (st : Store)
    : Result (list Comment) :=
  review ← get_object_or_404 (scoped kwargs) (reviews st);
  mret (filter (λ c, comment_review c = review_id review) (comments st)).

Definition perform_create (kwargs : gmap string nat) (request : Request)
    (validated_data : gmap string Value) (st : Store)
    : Result (Comment * Store) :=
  review ← get_object_or_404 (scoped kwargs) (reviews st);
  Serializer_save Comment_objects_create validated_data
    {[ "author" := user_value (user request); "review" := VReview review ]}
    st.
End CommentViewSet.

(** ** Registration and token issuance *)

Definition set_code (code : string) (u : User) : User :=
  {| user_id := user_id u; username := username u; email := email u;
     role := role u; confirmation_code := code |}.

Module CreateUserSerializer.
(** The identity a registration names. *)
Definition same_identity (n e : string) (u : User) : Prop :=
  username u = n ∧ email u = e.

Global Instance same_identity_dec n e u : Decision (same_identity n e u).
Proof. unfold same_identity. apply _. Defined.

(** No user shares only the name or only the email with the identity. *)
Definition compatible (n e : string) (us : list User) : Prop :=
  Forall (λ u, username u = n ↔ email u = e) us.

Global Instance compatible_dec n e us : Decision (compatible n e us).
Proof. unfold compatible. apply _. Defined.

(** Modelled from the spec: [CreateUserSerializer] of
    [api/serializers.py]. Registration accepts a username and an email,
    both unique among users, so a pair that shares only one of the two
    with an existing user is refused. *)
Definition is_valid (data : gmap string Value) (st : Store)
    : Result (string * string) :=
  match data !! "username", data !! "email" with
  | Some (VStr n), Some (VStr e) =>
      if bool_decide (compatible n e (users st))
      then Ok (n, e)
      else Raise ValidationError
  | _, _ => Raise ValidationError
  end.

(** The new code on the records of the identity. *)
Definition recode (n e code : string) (x : User) : User :=
  if bool_decide (same_identity n e x) then set_code code x else x.

(** Modelled from the spec: [save] creates the pending user or reuses the
    existing record of that identity, and sets a newly generated
    confirmation code ([code], drawn by the caller). *)
Definition save (n e code : string) (st : Store) : User * Store :=
  match filter (same_identity n e) (users st) with
  | u :: _ =>
      (set_code code u, set_users (recode n e code <$> users st) st)
  | [] =>
      let u := {| user_id := next_id (user_id <$> users st);
                  username := n; email := e; role := regular;
                  confirmation_code := code |} in
      (u, set_users (users st ++ [u]) st)
  end.

(** [serializer.data] *)
Definition data (n e : string) : gmap string Value :=
  {[ "username" := VStr n; "email" := VStr e ]}.
End CreateUserSerializer.

Module RegisterNewUserAPIView.
Definition permission_classes := [AllowAny].

Definition post (code : string) (request : Request) (st : Store)
    : Result (Response * Store) :=
  '(n, e) ← CreateUserSerializer.is_valid (data request) st;
  let '(user, st1) := CreateUserSerializer.save n e code st in
  let token := confirmation_code user in
  let st2 :=
    send_mail "Confirmation code" ("Your code: " +:+ token)
      "awesome@guy.com" [email user] st1 in
  mret ({| status := HTTP_200_OK;
           body := CreateUserSerializer.data n e |}, st2).
End RegisterNewUserAPIView.

Module GetJWTTokenSerializer.
(** Modelled from the spec: [GetJWTTokenSerializer] of
    [api/serializers.py]. The pair of username and confirmation code has
    to be the pair of one user; every other input is refused with the same
    error. *)
Definition is_valid (data : gmap string Value) (st : Store) : Result () :=
  match data !! "username", data !! "confirmation_code" with
  | Some (VStr n), Some (VStr c) =>
      if bool_decide
           (Exists (λ u, username u = n ∧ confirmation_code u = c)
                   (users st))
      then Ok ()
      else Raise ValidationError
  | _, _ => Raise ValidationError
  end.
End GetJWTTokenSerializer.

Module CustomJWTTokenView.
(** [request.data['username']]: a body without the key raises [KeyError]. *)
Definition subscript (data : gmap string Value) (key : string)
    : Result Value :=
  match data !! key with
  | Some v => Ok v
  | None => Raise KeyError
  end.

(** [post] over the validation of its serializer class. *)
Definition post_with
    (is_valid : gmap string Value → Store → Result ())
    (request : Request) (st : Store) : Result Response :=
  _ ← is_valid (data request) st;
  name ← subscript (data request) "username";
  user ← objects_get (λ u, text_of name = Some (username u)) (users st);
  let token := VToken (user_id user) in
  mret {| status := HTTP_200_OK; body := {[ "Token" := token ]} |}.

Definition post : Request → Store → Result Response :=
  post_with GetJWTTokenSerializer.is_valid.
End CustomJWTTokenView.

(** ** The statements of the specification *)

(** The resources of the access-control table and the view set that serves
    each in [views.py]. *)
Inductive Resource := RReview | RComment | RTitle | RCategory | RGenre | RUser.

Definition viewset_of (res : Resource) : ViewSet :=
  match res with
  | RReview => ReviewViewSet.view
  | RComment => CommentViewSet.view
  | RTitle => TitleViewSet.view
  | RCategory => CategoryViewSet.view
  | RGenre => GenreViewSet.view
  | RUser => UserViewSet.view
  end.

(** What the policy of section 4.1 decides on: the requester (absent when
    anonymous), the verb, the resource and the author of the target. *)
Record Query := {
  q_user : option User;
  q_verb : Method;
  q_resource : Resource;
  q_author : option nat
}.

Definition q_role (r : Role) (q : Query) : bool :=
  match q_user q with
  | Some u => bool_decide (role u = r)
  | None => false
  end.

Definition q_is_author (q : Query) : bool :=
  match q_user q, q_author q with
  | Some u, Some a => bool_decide (user_id u = a)
  | _, _ => false
  end.

Definition on_review_or_comment (q : Query) : bool :=
  match q_resource q with
  | RReview | RComment => true
  | _ => false
  end.

(** A rule answers when it matches. *)
Definition Rule := Query → option bool.

(** Rule 1: safe methods are always allowed. *)
Definition rule_1 : Rule := λ q,
  if is_safe (q_verb q) then Some true else None.

(** Rule 2: a create on a review or a comment is allowed to any
    authenticated user. *)
Definition rule_2 : Rule := λ q,
  if bool_decide (q_verb q = POST) && on_review_or_comment q
  then Some (bool_decide (is_Some (q_user q)))
  else None.

(** Rule 3: an update or a delete of a review or a comment is allowed to an
    admin, a moderator or the original author. *)
Definition rule_3 : Rule := λ q,
  if bool_decide (q_verb q ∈ [PUT; PATCH; DELETE]) && on_review_or_comment q
  then Some (q_role admin q || q_role moderator q || q_is_author q)
  else None.

(** Rule 4: unsafe methods on titles, categories, genres and the user
    collection are allowed only to an admin. *)
Definition rule_4 : Rule := λ q,
  if negb (is_safe (q_verb q)) && negb (on_review_or_comment q)
  then Some (q_role admin q)
  else None.

(** Rule 5: everything else is denied. *)
Definition rule_5 : Rule := λ _, Some false.

Definition precedence_table : list Rule :=
  [rule_1; rule_2; rule_3; rule_4; rule_5].

(** Top to bottom, the first rule that matches decides. *)
Fixpoint first_match (rules : list Rule) (q : Query) : bool :=
  match rules with
  | [] => false
  | r :: rules' =>
      match r q with
      | Some d => d
      | None => first_match rules' q
      end
  end.

(** The rational a finite double stands for. *)
Definition float_value (f : float) : option Qc :=
  match f with
  | S754_zero _ => Some (Qc_of_Z 0)
  | S754_finite s m e =>
      Some (Q2Qc (inject_Z (cond_Zopp s (Z.pos m)) * Qpower 2 e))
  | _ => None
  end.

(** The mean as double arithmetic computes it: the sum over the number,
    both as doubles, divided with rounding to nearest; undefined on the
    empty list. *)
Definition float_mean (xs : list Z) : option float :=
  match xs with
  | [] => None
  | _ => Some (float_div (float_of_Z (sum_Z xs))
                         (float_of_Z (Z.of_nat (length xs))))
  end.

(** Ratings small enough for their sum, and every partial sum, to be exact
    in a double. *)
Definition exact_sum (xs : list Z) : Prop :=
  (sum_Z (Z.abs <$> xs) < 2 ^ 53)%Z.

(** The arithmetic mean of a list of ratings, undefined on the empty list. *)
Definition arithmetic_mean (xs : list Z) : option Qc :=
  match xs with
  | [] => None
  | _ => Some (Qc_of_Z (sum_Z xs) / Qc_of_Z (Z.of_nat (length xs)))%Qc
  end.

(** The ratings of the reviews of a title. *)
Definition ratings_of (t : Title) (st : Store) : list Z :=
  review_rating <$> filter (λ r, review_title r = title_id t) (reviews st).

(** The query a request on a resource puts to the table. *)
Definition query_of (req : Request) (res : Resource) (o : Object) : Query :=
  {| q_user := user req; q_verb := method req; q_resource := res;
     q_author := author_of o |}.

(** ** Requests in sequence *)


(** ** Requests on comments *)

(** The ids of a path that the database can hold: numbers of its 64-bit
    integer range. *)
Definition in_id_range (kwargs : gmap string nat) : Prop :=
  ∀ k i, kwargs !! k = Some i → (Z.of_nat i < 2 ^ 63)%Z.

(** The validation of a serializer class, which may look at the path, the
    request and the store, and gives the validated data. *)
Definition Validation : Type :=
  gmap string nat → Request → Store → Result (gmap string Value).

(** Modelled from the spec: validation of [CommentSerializer] of
    [api/serializers.py]. A comment is its text; a body without the field,
    or with a text that is no string, is a validation failure (section 7).
    Author and review are not taken from the body. *)
Definition CommentSerializer_is_valid : Validation := λ _ request _,
  match data request !! "text" with
  | Some (VStr s) => Ok {[ "text" := VStr s ]}
  | _ => Raise ValidationError
  end.

(** [APIView.initial], which runs before the handler: the request-level
    permission check. *)
Definition initial (v : ViewSet) (request : Request) : Result () :=
  if check_permissions v request then Ok () else Raise PermissionDenied.

(** [ListModelMixin.list] on comments: the queryset of the path. *)
Definition CommentViewSet_list (kwargs : gmap string nat)
    (request : Request) (st : Store) : Result (list Comment) :=
  _ ← initial CommentViewSet.view request;
  CommentViewSet.get_queryset kwargs st.

(** [RetrieveModelMixin.retrieve] on comments: [get_object] looks the
    comment of the path up in the queryset, then checks the object
    permissions. *)
Definition CommentViewSet_retrieve (kwargs : gmap string nat)
    (request : Request) (st : Store) : Result Comment :=
  _ ← initial CommentViewSet.view request;
  queryset ← CommentViewSet.get_queryset kwargs st;
  obj ← get_object_or_404 (λ c, kwargs !! "pk" = Some (comment_id c))
          queryset;
  if check_object_permissions CommentViewSet.view request (CommentObj obj)
  then Ok obj else Raise PermissionDenied.

(** [CreateModelMixin.create] on comments: the body is validated
    ([is_valid(raise_exception=True)]) before [perform_create] runs. *)
Definition CommentViewSet_create (is_valid : Validation)
    (kwargs : gmap string nat) (request : Request) (st : Store)
    : Result (Comment * Store) :=
  _ ← initial CommentViewSet.view request;
  validated_data ← is_valid kwargs request st;
  CommentViewSet.perform_create kwargs request validated_data st.

(** ** The rest of [views.py] *)

Inductive TitleSerializerClass := TitleSerializer | TitleCreateSerializer.

(** [TitleViewSet.get_serializer_class]: [TitleSerializer] when
    [request.method in ['GET']], [TitleCreateSerializer] otherwise. *)
Definition TitleViewSet_get_serializer_class (request : Request)
    : TitleSerializerClass :=
  if bool_decide (method request ∈ [GET]) then TitleSerializer
  else TitleCreateSerializer.

(** The value of a named field of a user row, as a lookup compares it. *)
Definition User_field (field : string) (u : User) : option Value :=
  if bool_decide (field = "username") then Some (VStr (username u))
  else if bool_decide (field = "email") then Some (VStr (email u))
  else if bool_decide (field = "id" ∨ field = "pk")
       then Some (VInt (Z.of_nat (user_id u)))
  else if bool_decide (field = "confirmation_code")
       then Some (VStr (confirmation_code u))
  else None.

(** [GenericAPIView.get_object]: the row of the queryset whose
    [lookup_field] has the value captured from the URL, or not-found. *)
Definition get_object {A} (field_of : string → A → option Value)
    (v : ViewSet) (queryset : list A) (value : Value) : Result A :=
  get_object_or_404
    (λ x, field_of (vs_lookup_field v) x = Some value) queryset.

(** [get_object] on [UserViewSet], whose queryset is [User.objects.all()]. *)
Definition UserViewSet_get_object (st : Store) (value : Value)
    : Result User :=
  get_object User_field UserViewSet.view (users st) value.

(** Modelled from the spec: [Category] and [Genre] of [reviews/models.py],
    the named, slug-keyed classification entities of section 3. *)
Record Category := {
  category_id : nat;
  category_name : string;
  category_slug : string
}.

Record Genre := {
  genre_id : nat;
  genre_name : string;
  genre_slug : string
}.

Global Instance Category_eq_dec : EqDecision Category.
Proof. solve_decision. Defined.
Global Instance Genre_eq_dec : EqDecision Genre.
Proof. solve_decision. Defined.

Definition Category_field (field : string) (c : Category) : option Value :=
  if bool_decide (field = "slug") then Some (VStr (category_slug c))
  else if bool_decide (field = "name") then Some (VStr (category_name c))
  else if bool_decide (field = "id" ∨ field = "pk")
       then Some (VInt (Z.of_nat (category_id c)))
  else None.

Definition Genre_field (field : string) (g : Genre) : option Value :=
  if bool_decide (field = "slug") then Some (VStr (genre_slug g))
  else if bool_decide (field = "name") then Some (VStr (genre_name g))
  else if bool_decide (field = "id" ∨ field = "pk")
       then Some (VInt (Z.of_nat (genre_id g)))
  else None.

(** [DestroyModelMixin.destroy]: [get_object] on the queryset as the filter
    backends leave it ([accepts], here the search filter on [name]), then
    [instance.delete()], which removes the row of that primary key. *)
Definition destroy_row {A} (field_of : string → A → option Value)
    (pk : A → nat) (v : ViewSet) (accepts : A → bool) (rows : list A)
    (value : Value) : Result (list A) :=
  instance ← get_object field_of v
                (filter (λ x, accepts x = true) rows) value;
  mret (filter (λ x, pk x ≠ pk instance) rows).

Definition CategoryViewSet_destroy :=
  destroy_row Category_field category_id CategoryViewSet.view.

Definition GenreViewSet_destroy :=
  destroy_row Genre_field genre_id GenreViewSet.view.

(** * Properties *)

(** Closed decidable facts are settled by evaluation. *)
Ltac by_decide :=
  match goal with
  | |- ?P => apply (bool_decide_unpack P); vm_compute; exact I
  end.

(** ** Verb dispatch *)

(** C9: the review and comment view sets answer only GET, POST, PATCH and
    DELETE. A full replace (PUT) has no handler on either route, while PATCH
    on an object is handled by the partial update; the four verbs each have
    their handler (list and retrieve, create, partial update, destroy). *)
Theorem review_comment_verbs (v : ViewSet) (k : Route) (m : Method) :
  v = ReviewViewSet.view ∨ v = CommentViewSet.view →
  (is_Some (handler v k m) → m ∈ [GET; POST; PATCH; DELETE])
  ∧ handler v k PUT = None
  ∧ handler v DetailRoute PATCH = Some partial_update
  ∧ handler v ListRoute GET = Some list_action
  ∧ handler v DetailRoute GET = Some retrieve
  ∧ handler v ListRoute POST = Some create
  ∧ handler v DetailRoute DELETE = Some destroy.
Proof.
  intros [-> | ->];
    (split;
     [ intros [a Ha]; destruct k, m; vm_compute in Ha;
       try discriminate Ha; set_solver
     | destruct k; repeat split ]).
Qed.

Lemma review_comment_verbs_witness :
  handler ReviewViewSet.view DetailRoute PUT = None
  ∧ handler ReviewViewSet.view DetailRoute PATCH = Some partial_update.
Proof.
  pose proof (review_comment_verbs ReviewViewSet.view DetailRoute PUT
                (or_introl eq_refl)) as (_ & HP & HQ & _).
  exact (conj HP HQ).
Defined.


(** ** Access control *)



Lemma four_verbs (m : Method) :
  m ∈ [GET; POST; PATCH; DELETE] →
  m = GET ∨ m = POST ∨ m = PATCH ∨ m = DELETE.
Proof. rewrite !elem_of_cons, elem_of_nil. naive_solver. Qed.




(** C1: for every requester (anonymous, regular, moderator or admin), every
    verb among GET, POST, PATCH and DELETE and every resource among reviews,
    comments, titles, categories, genres and users, the decision of the view
    set that serves the resource is the decision of the first matching rule
    of the precedence table of section 4.1; reads are allowed to every
    requester, while a read on the personal-info endpoint is allowed exactly
    to an authenticated requester who is the user read. *)
Theorem access_decision_matches_table
    (u : option User) (m : Method) (k : Route) (a : Action)
    (res : Resource) (o : Object) (d : gmap string Value) :
  m ∈ [GET; POST; PATCH; DELETE] →
  route_mapping k m = Some a →
  let req := {| method := m; user := u; data := d |} in
  allowed (viewset_of res) req a o
  = first_match precedence_table (query_of req res o)
  ∧ (m = GET → allowed (viewset_of res) req a o = true)
  ∧ (m = GET → a = retrieve →
     (allowed GetPersonalInfoViewSet.view req a o = true
      ↔ ∃ usr target,
          u = Some usr ∧ o = UserObj target
          ∧ user_id usr = user_id target)).
Proof.
  intros Hm Ha req. subst req. apply four_verbs in Hm.
  split; [| split].
  - destruct Hm as [-> | [-> | [-> | ->]]]; destruct k;
      try discriminate Ha; injection Ha as <-;
      destruct res, u as [[uid un ue [] cc] |], o as [r | c | t | s | tu];
      cbv [allowed check_permissions check_object_permissions forallb
           viewset_of vs_permission_classes uses_get_object
           has_permission has_object_permission is_author is_authenticated
           has_role first_match precedence_table rule_1 rule_2 rule_3
           rule_4 rule_5 query_of q_role q_is_author on_review_or_comment
           q_user q_verb q_resource q_author author_of method user role
           user_id
           ReviewViewSet.view CommentViewSet.view TitleViewSet.view
           CategoryViewSet.view GenreViewSet.view UserViewSet.view
           ReviewViewSet.permission_classes CommentViewSet.permission_classes
           TitleViewSet.permission_classes CategoryViewSet.permission_classes
           GenreViewSet.permission_classes UserViewSet.permission_classes];
      try (match goal with
           | |- context [bool_decide (uid = ?y)] =>
               generalize (bool_decide (uid = y)); intros []
           end);
      vm_compute; reflexivity.
  - intros ->. destruct k; try discriminate Ha; injection Ha as <-;
      destruct res; reflexivity.
  - intros -> ->.
    unfold allowed, check_permissions, check_object_permissions; cbn.
    destruct u as [usr |]; cbn.
    + destruct o as [r | c | t | s | tu]; cbn;
        try rewrite andb_true_r, bool_decide_eq_true;
        (split; [try discriminate; eauto | intros (? & ? & ? & ? & ?)]);
        simplify_eq; done.
    + split; [discriminate | intros (? & ? & ? & _); discriminate].
Qed.

Lemma access_decision_matches_table_witness :
  allowed (viewset_of RComment)
    {| method := DELETE;
       user := Some {| user_id := 2; username := "mod";
                       email := "mod@example.com"; role := moderator;
                       confirmation_code := "c" |};
       data := ∅ |}
    destroy
    (CommentObj {| comment_id := 1; comment_review := 1;
                   comment_author := 7; comment_text := "t" |})
  = true.
Proof.
  pose proof (access_decision_matches_table
                (Some {| user_id := 2; username := "mod";
                         email := "mod@example.com"; role := moderator;
                         confirmation_code := "c" |})
                DELETE DetailRoute destroy RComment
                (CommentObj {| comment_id := 1; comment_review := 1;
                               comment_author := 7; comment_text := "t" |})
                ∅) as H.
  destruct H as (H & _).
  - by_decide.
  - reflexivity.
  - rewrite H. reflexivity.
Defined.

(** C2: an update or a delete of a review or of a comment is allowed exactly
    when the requester is an admin, a moderator, or the author of the
    object; so a moderator may delete any comment, whoever wrote it, and may
    not delete a title, a category or a genre. *)
Theorem update_delete_review_comment
    (v : ViewSet) (u : option User) (m : Method) (a : Action)
    (o : Object) (au : nat) (d : gmap string Value) :
  v = ReviewViewSet.view ∨ v = CommentViewSet.view →
  is_safe m = false →
  handler v DetailRoute m = Some a →
  author_of o = Some au →
  (allowed v {| method := m; user := u; data := d |} a o = true
   ↔ ∃ usr, u = Some usr
            ∧ (role usr = admin ∨ role usr = moderator ∨ user_id usr = au))
  ∧ (∀ usr, u = Some usr → role usr = moderator →
       allowed CommentViewSet.view
         {| method := DELETE; user := u; data := d |} destroy o = true
       ∧ ∀ v' o',
           v' ∈ [TitleViewSet.view; CategoryViewSet.view; GenreViewSet.view] →
           allowed v' {| method := DELETE; user := u; data := d |}
             destroy o' = false).
Proof.
  intros Hv Hsafe Ha Hau.
  assert (Hm : (m = PATCH ∧ a = partial_update) ∨ (m = DELETE ∧ a = destroy)).
  { destruct Hv as [-> | ->], m; try discriminate Hsafe;
      vm_compute in Ha; try discriminate Ha; injection Ha as <-; auto. }
  split.
  - assert (Hal :
      allowed v {| method := m; user := u; data := d |} a o
      = match u with
        | Some usr =>
            bool_decide (role usr = admin) || bool_decide (role usr = moderator)
            || bool_decide (user_id usr = au)
        | None => false
        end).
    { unfold allowed, check_permissions, check_object_permissions.
      destruct Hv as [-> | ->], Hm as [[-> ->] | [-> ->]], u as [usr |];
        cbn; unfold is_author; cbn; rewrite ?Hau, ?andb_true_r;
        reflexivity. }
    rewrite Hal. destruct u as [usr |].
    + rewrite !orb_true_iff, !bool_decide_eq_true. naive_solver.
    + split; [discriminate | intros (? & ? & _); discriminate].
  - intros usr -> Hrole. split.
    + unfold allowed, check_permissions, check_object_permissions,
        has_role; cbn.
      rewrite Hrole. reflexivity.
    + intros v' o' Hv'.
      rewrite !elem_of_cons, elem_of_nil in Hv'.
      unfold allowed, check_permissions, check_object_permissions,
        has_role.
      destruct Hv' as [-> | [-> | [-> | []]]]; cbn;
        rewrite Hrole; reflexivity.
Qed.

Lemma update_delete_review_comment_witness :
  allowed ReviewViewSet.view
    {| method := PATCH;
       user := Some {| user_id := 7; username := "ann";
                       email := "ann@example.com"; role := regular;
                       confirmation_code := "c" |};
       data := ∅ |}
    partial_update
    (ReviewObj {| review_id := 3; review_title := 1; review_author := 7;
                  review_text := "fine"; review_rating := 8 |})
  = true.
Proof.
  pose proof (update_delete_review_comment ReviewViewSet.view
                (Some {| user_id := 7; username := "ann";
                         email := "ann@example.com"; role := regular;
                         confirmation_code := "c" |})
                PATCH partial_update
                (ReviewObj {| review_id := 3; review_title := 1;
                              review_author := 7; review_text := "fine";
                              review_rating := 8 |})
                7 ∅ (or_introl eq_refl) eq_refl eq_refl eq_refl) as [H _].
  apply H. eexists. split; [reflexivity |]. right. right. reflexivity.
Defined.

(** ** Scoped lookups *)

Section lookups.
Context {A : Type} (P : A → Prop) {Pdec : ∀ x, Decision (P x)}.

Lemma objects_get_Ok rows x :
  objects_get P rows = Ok x → x ∈ rows ∧ P x.
Proof.
  unfold objects_get. intros H.
  assert (Hx : x ∈ filter P rows).
  { destruct (filter P rows) as [| y [| z l]]; try discriminate H.
    injection H as ->. apply list_elem_of_singleton. reflexivity. }
  apply list_elem_of_filter in Hx. tauto.
Qed.

Lemma filter_none rows :
  Forall (λ x, ¬ P x) rows → filter P rows = [].
Proof.
  induction 1 as [| y l Hy _ IH]; [reflexivity |].
  rewrite filter_cons_False by exact Hy. exact IH.
Qed.

Lemma objects_get_none rows :
  Forall (λ x, ¬ P x) rows → objects_get P rows = Raise DoesNotExist.
Proof.
  intros H. unfold objects_get. rewrite filter_none by exact H.
  reflexivity.
Qed.

Lemma get_object_or_404_Ok rows x :
  get_object_or_404 P rows = Ok x → x ∈ rows ∧ P x.
Proof.
  unfold get_object_or_404. intros H. apply objects_get_Ok.
  destruct (objects_get P rows) as [y | []]; congruence.
Qed.

Lemma get_object_or_404_none rows :
  Forall (λ x, ¬ P x) rows → get_object_or_404 P rows = Raise Http404.
Proof.
  intros H. unfold get_object_or_404.
  rewrite objects_get_none by exact H. reflexivity.
Qed.

(** A filter on a key that identifies its row finds that row and no
    other. *)
Lemma filter_unique {B} (f : A → B) rows x :
  NoDup (f <$> rows) → x ∈ rows → P x → (∀ y, P y → f y = f x) →
  filter P rows = [x].
Proof.
  intros Hnd Hx HP Hkey.
  induction rows as [| y l IH]; [by apply elem_of_nil in Hx |].
  rewrite fmap_cons in Hnd. apply NoDup_cons in Hnd as [Hy Hnd].
  apply elem_of_cons in Hx as [<- | Hx].
  - rewrite filter_cons_True by exact HP. f_equal.
    apply filter_none, Forall_forall.
    intros z Hz HPz. apply Hy. rewrite <- (Hkey z HPz).
    apply list_elem_of_fmap. eauto.
  - rewrite filter_cons_False; [by apply IH |].
    intros HPy. apply Hy. rewrite (Hkey y HPy).
    apply list_elem_of_fmap. eauto.
Qed.

Lemma objects_get_unique {B} (f : A → B) rows x :
  NoDup (f <$> rows) → x ∈ rows → P x → (∀ y, P y → f y = f x) →
  objects_get P rows = Ok x.
Proof.
  intros. unfold objects_get.
  by rewrite (filter_unique f rows x).
Qed.

Lemma get_object_or_404_unique {B} (f : A → B) rows x :
  NoDup (f <$> rows) → x ∈ rows → P x → (∀ y, P y → f y = f x) →
  get_object_or_404 P rows = Ok x.
Proof.
  intros. unfold get_object_or_404.
  by rewrite (objects_get_unique f rows x).
Qed.
End lookups.

(** C5, as stated, fails for a create: the body is validated before the
    review of the path is looked up, so a create with an invalid body under
    a review that does not belong to the title of the path ends with the
    validation error, not with not-found. *)
Lemma mismatched_create_invalid_body_is_validation_error :
  let ann := {| user_id := 7; username := "ann"; email := "ann@example.com";
                role := regular; confirmation_code := "c" |} in
  let st := {| users := [ann];
               titles := [{| title_id := 1; title_name := "A" |};
                          {| title_id := 2; title_name := "B" |}];
               reviews := [{| review_id := 5; review_title := 1;
                              review_author := 7; review_text := "fine";
                              review_rating := 8 |}];
               comments := []; outbox := [] |} in
  CommentViewSet_create CommentSerializer_is_valid
    {[ "title_id" := 2; "review_id" := 5 ]}
    {| method := POST; user := Some ann; data := ∅ |} st
  = Raise ValidationError.
Proof. reflexivity. Qed.

(** C5, amended: when the review id of the path names no review of the
    title of the path (the review is missing, or belongs to another title),
    the ids being numbers the database can hold, every read (list or
    retrieve) ends with the not-found error, and a create never creates a
    comment: it ends with not-found once the requester may create and the
    body is valid, with the authorization failure for an anonymous
    requester and with the error of the validation for an invalid body,
    both of which are checked before the lookup. No request ends with a
    mismatch error of its own. *)
Theorem mismatched_review_requests
    (kwargs : gmap string nat) (st : Store) :
  (∀ r, r ∈ reviews st →
        kwargs !! "review_id" = Some (review_id r) →
        kwargs !! "title_id" ≠ Some (review_title r)) →
  in_id_range kwargs →
  (∀ request, method request = GET →
     CommentViewSet_list kwargs request st = Raise Http404
     ∧ CommentViewSet_retrieve kwargs request st = Raise Http404)
  ∧ (∀ (is_valid : Validation) request, method request = POST →
       (user request = None →
        CommentViewSet_create is_valid kwargs request st
        = Raise PermissionDenied)
       ∧ (∀ u validated_data,
            user request = Some u →
            is_valid kwargs request st = Ok validated_data →
            CommentViewSet_create is_valid kwargs request st
            = Raise Http404)
       ∧ (∀ u e,
            user request = Some u →
            is_valid kwargs request st = Raise e →
            CommentViewSet_create is_valid kwargs request st = Raise e))
  ∧ (∀ (is_valid : Validation) request c st',
       CommentViewSet_create is_valid kwargs request st ≠ Ok (c, st')).
Proof.
  intros Hno _.
  assert (H404 : get_object_or_404 (CommentViewSet.scoped kwargs) (reviews st)
                 = Raise Http404).
  { apply get_object_or_404_none, Forall_forall.
    intros r Hr [Hid Ht]. exact (Hno r Hr Hid Ht). }
  assert (Hqs : CommentViewSet.get_queryset kwargs st = Raise Http404)
    by (unfold CommentViewSet.get_queryset; by rewrite H404).
  assert (Hpc : ∀ request vd,
            CommentViewSet.perform_create kwargs request vd st
            = Raise Http404)
    by (intros; unfold CommentViewSet.perform_create; by rewrite H404).
  split; [| split].
  - intros [m u d] Hm. cbn in Hm. subst m.
    unfold CommentViewSet_list, CommentViewSet_retrieve. cbn.
    rewrite Hqs. split; reflexivity.
  - intros is_valid [m u d] Hm. cbn in Hm. subst m.
    unfold CommentViewSet_create. cbn. repeat split.
    + intros ->. reflexivity.
    + intros u' vd -> ->. cbn. apply Hpc.
    + intros u' e -> ->. reflexivity.
  - intros is_valid request c st'. unfold CommentViewSet_create.
    destruct (initial _ request); [| discriminate]. cbn.
    destruct (is_valid kwargs request st); [| discriminate]. cbn.
    rewrite Hpc. discriminate.
Qed.

Lemma mismatched_review_requests_witness :
  let ann := {| user_id := 7; username := "ann"; email := "ann@example.com";
                role := regular; confirmation_code := "c" |} in
  let st := {| users := [ann];
               titles := [{| title_id := 1; title_name := "A" |};
                          {| title_id := 2; title_name := "B" |}];
               reviews := [{| review_id := 5; review_title := 1;
                              review_author := 7; review_text := "fine";
                              review_rating := 8 |}];
               comments := []; outbox := [] |} in
  let kwargs : gmap string nat := {[ "title_id" := 2; "review_id" := 5 ]} in
  CommentViewSet_list kwargs {| method := GET; user := None; data := ∅ |} st
  = Raise Http404
  ∧ CommentViewSet_create CommentSerializer_is_valid kwargs
      {| method := POST; user := Some ann;
         data := {[ "text" := VStr "agreed" ]} |} st
    = Raise Http404.
Proof.
  intros ann st kwargs.
  assert (Hno : ∀ r, r ∈ reviews st →
                     kwargs !! "review_id" = Some (review_id r) →
                     kwargs !! "title_id" ≠ Some (review_title r)).
  { intros r Hr _. apply list_elem_of_singleton in Hr as ->.
    vm_compute. discriminate. }
  assert (Hrange : in_id_range kwargs).
  { intros k i Hk. unfold kwargs in Hk.
    apply lookup_insert_Some in Hk as [[_ <-] | [_ Hk]]; [lia |].
    apply lookup_singleton_Some in Hk as [_ <-]. lia. }
  destruct (mismatched_review_requests kwargs st Hno Hrange)
    as (Hread & Hcreate & _).
  split.
  - apply (Hread {| method := GET; user := None; data := ∅ |} eq_refl).
  - destruct (Hcreate CommentSerializer_is_valid
                {| method := POST; user := Some ann;
                   data := {[ "text" := VStr "agreed" ]} |} eq_refl)
      as (_ & Hvalid & _).
    apply (Hvalid ann {[ "text" := VStr "agreed" ]}); reflexivity.
Defined.

(** ** Creation of reviews and comments *)

(** The keyword arguments of [save] win over the validated data. *)
Lemma save_kwargs_first (kw vd : gmap string Value) k1 v1 k2 v2 :
  kw = {[ k1 := v1; k2 := v2 ]} → k1 ≠ k2 →
  (kw ∪ vd) !! k1 = Some v1 ∧ (kw ∪ vd) !! k2 = Some v2.
Proof.
  intros -> Hne. split; apply lookup_union_Some_l.
  - apply lookup_insert_eq.
  - rewrite lookup_insert_ne by exact Hne. apply lookup_singleton_eq.
Qed.

Lemma save_keeps_other_fields (kw vd : gmap string Value) k1 v1 k2 v2 k :
  kw = {[ k1 := v1; k2 := v2 ]} → k ≠ k1 → k ≠ k2 →
  (kw ∪ vd) !! k = vd !! k.
Proof.
  intros -> H1 H2. apply lookup_union_r.
  rewrite lookup_insert_ne by congruence.
  apply lookup_singleton_ne. congruence.
Qed.

(** C4: a review or a comment that is created carries the requester as its
    author and the title (for a comment, the review) resolved from the path
    as its parent, whatever the validated body holds under [author],
    [title] or [review]; and the create does succeed for an authenticated
    requester on an existing parent with a complete body. *)
Theorem create_stamps_author_and_parent
    (kwargs : gmap string nat) (request : Request)
    (validated_data : gmap string Value) (st : Store) :
  (∀ r st',
     ReviewViewSet.perform_create kwargs request validated_data st
     = Ok (r, st') →
     ∃ usr t,
       user request = Some usr ∧ review_author r = user_id usr
       ∧ t ∈ titles st ∧ kwargs !! "title_id" = Some (title_id t)
       ∧ review_title r = title_id t
       ∧ reviews st' = (reviews st ++ [r])%list)
  ∧ (∀ c st',
       CommentViewSet.perform_create kwargs request validated_data st
       = Ok (c, st') →
       ∃ usr rv,
         user request = Some usr ∧ comment_author c = user_id usr
         ∧ rv ∈ reviews st ∧ kwargs !! "review_id" = Some (review_id rv)
         ∧ kwargs !! "title_id" = Some (review_title rv)
         ∧ comment_review c = review_id rv
         ∧ comments st' = (comments st ++ [c])%list)
  ∧ (∀ usr t s n,
       user request = Some usr →
       NoDup (title_id <$> titles st) → t ∈ titles st →
       kwargs !! "title_id" = Some (title_id t) →
       validated_data !! "text" = Some (VStr s) →
       validated_data !! "rating" = Some (VInt n) →
       ∃ r st',
         ReviewViewSet.perform_create kwargs request validated_data st
         = Ok (r, st'))
  ∧ (∀ usr rv s,
       user request = Some usr →
       NoDup (review_id <$> reviews st) → rv ∈ reviews st →
       kwargs !! "review_id" = Some (review_id rv) →
       kwargs !! "title_id" = Some (review_title rv) →
       validated_data !! "text" = Some (VStr s) →
       ∃ c st',
         CommentViewSet.perform_create kwargs request validated_data st
         = Ok (c, st')).
Proof.
  split; [| split; [| split]].
  - intros r st'. unfold ReviewViewSet.perform_create.
    destruct (get_object_or_404 _ (titles st)) as [t | e] eqn:Ht;
      [| discriminate].
    apply get_object_or_404_Ok in Ht as [Hin Hid]. cbn.
    unfold Serializer_save, Review_objects_create.
    edestruct (save_kwargs_first _ validated_data "author"
                 (user_value (user request)) "title" (VTitle t) eq_refl)
      as [-> ->]; [done |].
    destruct (user request) as [usr |]; cbn; [| discriminate].
    repeat case_match; try discriminate.
    intros [= <- <-]. exists usr, t. done.
  - intros c st'. unfold CommentViewSet.perform_create.
    destruct (get_object_or_404 _ (reviews st)) as [rv | e] eqn:Hr;
      [| discriminate].
    apply get_object_or_404_Ok in Hr as [Hin [Hid Ht]]. cbn.
    unfold Serializer_save, Comment_objects_create.
    edestruct (save_kwargs_first _ validated_data "author"
                 (user_value (user request)) "review" (VReview rv) eq_refl)
      as [-> ->]; [done |].
    destruct (user request) as [usr |]; cbn; [| discriminate].
    repeat case_match; try discriminate.
    intros [= <- <-]. exists usr, rv. done.
  - intros usr t s n Hu Hnd Hin Hid Htext Hrating.
    unfold ReviewViewSet.perform_create.
    rewrite (get_object_or_404_unique _ title_id (titles st) t);
      [| done | done | done | intros y Hy; congruence].
    cbn. unfold Serializer_save, Review_objects_create.
    edestruct (save_kwargs_first _ validated_data "author"
                 (user_value (user request)) "title" (VTitle t) eq_refl)
      as [-> ->]; [done |].
    rewrite !(save_keeps_other_fields _ validated_data "author"
                (user_value (user request)) "title" (VTitle t)) by done.
    rewrite Hu, Htext, Hrating. cbn. eauto.
  - intros usr rv s Hu Hnd Hin Hid Ht Htext.
    unfold CommentViewSet.perform_create.
    rewrite (get_object_or_404_unique _ review_id (reviews st) rv);
      [| done | done | done | intros y [Hy _]; congruence].
    cbn. unfold Serializer_save, Comment_objects_create.
    edestruct (save_kwargs_first _ validated_data "author"
                 (user_value (user request)) "review" (VReview rv) eq_refl)
      as [-> ->]; [done |].
    rewrite !(save_keeps_other_fields _ validated_data "author"
                (user_value (user request)) "review" (VReview rv)) by done.
    rewrite Hu, Htext. cbn. eauto.
Qed.

Lemma create_stamps_author_and_parent_witness :
  let ann := {| user_id := 7; username := "ann"; email := "ann@example.com";
                role := regular; confirmation_code := "c" |} in
  let bob := {| user_id := 99; username := "bob"; email := "bob@example.com";
                role := regular; confirmation_code := "d" |} in
  let t1 := {| title_id := 1; title_name := "A" |} in
  let t2 := {| title_id := 2; title_name := "B" |} in
  let st := {| users := [ann; bob]; titles := [t1; t2]; reviews := [];
               comments := []; outbox := [] |} in
  let body : gmap string Value :=
    {[ "text" := VStr "good"; "rating" := VInt 9;
       "author" := VUser bob; "title" := VTitle t2 ]} in
  ∃ r st',
    ReviewViewSet.perform_create {[ "title_id" := 1 ]}
      {| method := POST; user := Some ann; data := body |} body st
    = Ok (r, st')
    ∧ review_author r = 7 ∧ review_title r = 1.
Proof.
  intros ann bob t1 t2 st body.
  destruct (create_stamps_author_and_parent {[ "title_id" := 1 ]}
              {| method := POST; user := Some ann; data := body |} body st)
    as (Hstamp & _ & Hsucceeds & _).
  destruct (Hsucceeds ann t1 "good" 9%Z) as (r & st' & Hok).
  - reflexivity.
  - by_decide.
  - by_decide.
  - reflexivity.
  - reflexivity.
  - reflexivity.
  - exists r, st'. split; [exact Hok |].
    destruct (Hstamp r st' Hok) as (usr & t & Hu & Hau & _ & Hk & Ht & _).
    injection Hu as <-. rewrite Ht, Hau.
    apply lookup_singleton_Some in Hk as [_ Hk]. rewrite <- Hk.
    split; reflexivity.
Defined.

(** ** The title list *)

Lemma joined_rows_title rs t row : row ∈ joined_rows rs t → row.1 = t.
Proof.
  unfold joined_rows.
  destruct (filter _ rs) as [| r m].
  - intros ->%list_elem_of_singleton. reflexivity.
  - intros (r' & -> & _)%list_elem_of_fmap. reflexivity.
Qed.

Lemma filter_all {A} (P : A → Prop) {Pdec : ∀ x, Decision (P x)} l :
  Forall P l → filter P l = l.
Proof.
  induction 1 as [| x l Hx _ IH]; [reflexivity |].
  rewrite filter_cons_True by exact Hx. by rewrite IH.
Qed.

Lemma left_join_cons t ts rs :
  left_join (t :: ts) rs = (joined_rows rs t ++ left_join ts rs)%list.
Proof. apply bind_cons. Qed.

Lemma group_outside ts rs (x : nat) :
  x ∉ title_id <$> ts →
  filter (λ row, title_id row.1 = x) (left_join ts rs) = [].
Proof.
  intros Hx. apply filter_none, Forall_forall. intros row Hrow Hid.
  apply list_elem_of_bind in Hrow as (t & Hrow & Ht).
  apply joined_rows_title in Hrow. subst x. apply Hx.
  apply list_elem_of_fmap. exists t. by rewrite Hrow.
Qed.

(** Grouping the join by the id of a title gives back the rows of that
    title, ids being unique. *)
Lemma group_of_title ts rs t :
  NoDup (title_id <$> ts) → t ∈ ts →
  filter (λ row, title_id row.1 = title_id t) (left_join ts rs)
  = joined_rows rs t.
Proof.
  induction ts as [| t0 ts IH]; intros Hnd Hin;
    [by apply elem_of_nil in Hin |].
  rewrite fmap_cons in Hnd. apply NoDup_cons in Hnd as [Hfresh Hnd].
  rewrite left_join_cons, filter_app.
  apply elem_of_cons in Hin as [-> | Hin].
  - rewrite (group_outside ts rs (title_id t0) Hfresh), app_nil_r.
    apply filter_all, Forall_forall. intros row Hrow.
    by rewrite (joined_rows_title _ _ _ Hrow).
  - rewrite IH by done.
    rewrite filter_none; [reflexivity |].
    apply Forall_forall. intros row Hrow Hid.
    rewrite (joined_rows_title _ _ _ Hrow) in Hid.
    apply Hfresh. rewrite Hid. apply list_elem_of_fmap. eauto.
Qed.

Lemma omap_id_Some {A} (xs : list A) : omap id (Some <$> xs) = xs.
Proof. induction xs as [| x xs IH]; [reflexivity |]. csimpl. by rewrite IH. Qed.

(** On values that are all present, [Avg] is the mean in double
    arithmetic. *)
Lemma Avg_float_mean xs : Avg (Some <$> xs) = float_mean xs.
Proof.
  unfold Avg, float_mean. rewrite omap_id_Some.
  destruct xs; reflexivity.
Qed.

Lemma Avg_joined_rows rs t :
  Avg (row_rating <$> joined_rows rs t)
  = float_mean
      (review_rating <$> filter (λ r, review_title r = title_id t) rs).
Proof.
  unfold joined_rows.
  destruct (filter _ rs) as [| r m] eqn:E; [reflexivity |].
  rewrite <- Avg_float_mean, <- !list_fmap_compose. reflexivity.
Qed.

Lemma elem_of_annotate_rating ts rs t q :
  NoDup (title_id <$> ts) →
  (t, q) ∈ annotate_rating ts rs
  ↔ t ∈ ts
    ∧ q = float_mean
            (review_rating <$> filter (λ r, review_title r = title_id t) rs).
Proof.
  intros Hnd. unfold annotate_rating. rewrite list_elem_of_fmap. split.
  - intros (t' & [= <- ->] & Hin).
    by rewrite group_of_title, Avg_joined_rows.
  - intros [Hin ->]. exists t.
    by rewrite group_of_title, Avg_joined_rows.
Qed.

Lemma elem_of_title_list flt st row :
  row ∈ TitleViewSet.list flt st
  ↔ flt row.1 = true
    ∧ row ∈ annotate_rating (titles st) (reviews st).
Proof.
  unfold TitleViewSet.list, TitleViewSet.queryset, order_by_desc_id.
  rewrite list_elem_of_filter, merge_sort_Permutation. reflexivity.
Qed.

(** C6, as stated, fails: the rating is a double, and a mean that is no
    binary fraction is not the value of any double. With ratings 8, 9 and 9
    the title is listed with the double nearest to 26/3, which is not
    26/3. *)
Lemma title_rating_is_not_exact_mean :
  let t1 := {| title_id := 1; title_name := "A" |} in
  let review i n := {| review_id := i; review_title := 1; review_author := i;
                       review_text := "text"; review_rating := n |} in
  let st := {| users := []; titles := [t1];
               reviews := [review 1 8%Z; review 2 9%Z; review 3 9%Z];
               comments := []; outbox := [] |} in
  ∃ f, (t1, Some f) ∈ TitleViewSet.list (λ _, true) st
       ∧ float_value f ≠ arithmetic_mean (ratings_of t1 st).
Proof.
  intros t1 review st.
  exists (S754_finite false 4878899596318037 (-49)). split.
  - apply elem_of_title_list. split; [reflexivity |].
    apply elem_of_annotate_rating; [by_decide |].
    split; [by_decide |]. vm_compute. reflexivity.
  - intros H. apply (f_equal (fmap this)) in H. vm_compute in H.
    discriminate H.
Qed.

(** C6, amended: in the title list, the rating shown with a title is the
    mean of the ratings of the reviews of that title in the store as it is
    when the list is read (a title record holds no rating of its own),
    computed in double-precision arithmetic: the sum of the ratings divided
    by their number, rounded to the nearest double. It is null, not zero,
    for a title without reviews; every title the filter accepts is listed
    with that rating. *)
Theorem title_rating_is_float_mean
    (TitleFilter : Title → bool) (st : Store) (t : Title)
    (rating : option float) :
  NoDup (title_id <$> titles st) →
  exact_sum (ratings_of t st) →
  ((t, rating) ∈ TitleViewSet.list TitleFilter st →
   rating = float_mean (ratings_of t st)
   ∧ (filter (λ r, review_title r = title_id t) (reviews st) = [] →
      rating = None))
  ∧ (t ∈ titles st → TitleFilter t = true →
     (t, float_mean (ratings_of t st)) ∈ TitleViewSet.list TitleFilter st).
Proof.
  intros Hnd _. unfold ratings_of. split.
  - intros [_ [_ ->]%elem_of_annotate_rating]%elem_of_title_list; [| done].
    split; [reflexivity |]. by intros ->.
  - intros Hin Hflt. apply elem_of_title_list. split; [exact Hflt |].
    by apply elem_of_annotate_rating.
Qed.

Lemma title_rating_is_float_mean_witness :
  let t1 := {| title_id := 1; title_name := "A" |} in
  let t2 := {| title_id := 2; title_name := "B" |} in
  let st := {| users := []; titles := [t1; t2];
               reviews := [{| review_id := 1; review_title := 1;
                              review_author := 7; review_text := "good";
                              review_rating := 8 |};
                           {| review_id := 2; review_title := 1;
                              review_author := 9; review_text := "great";
                              review_rating := 9 |}];
               comments := []; outbox := [] |} in
  (t1, Some (S754_finite false 4785074604081152 (-49)))
  ∈ TitleViewSet.list (λ _, true) st
  ∧ float_value (S754_finite false 4785074604081152 (-49))
    = arithmetic_mean [8; 9]%Z
  ∧ (t2, None) ∈ TitleViewSet.list (λ _, true) st.
Proof.
  intros t1 t2 st.
  assert (Hnd : NoDup (title_id <$> titles st)) by by_decide.
  split; [| split].
  - apply (title_rating_is_float_mean (λ _, true) st t1 None Hnd);
      [vm_compute; reflexivity | by_decide | reflexivity].
  - apply (f_equal Some). apply Qc_is_canon. vm_compute. reflexivity.
  - apply (title_rating_is_float_mean (λ _, true) st t2 None Hnd);
      [vm_compute; reflexivity | by_decide | reflexivity].
Defined.

Lemma StronglySorted_filter {A} (R : relation A) (P : A → Prop)
    {Pdec : ∀ x, Decision (P x)} l :
  StronglySorted R l → StronglySorted R (filter P l).
Proof.
  induction 1 as [| x l _ IH Hx]; [constructor |].
  rewrite filter_cons. destruct (decide (P x)); [| exact IH].
  constructor; [exact IH |].
  apply Forall_forall. intros y [_ Hy]%list_elem_of_filter.
  rewrite Forall_forall in Hx. by apply Hx.
Qed.

Global Instance desc_id_trans : Transitive desc_id.
Proof. unfold desc_id. intros a b c ? ?. lia. Qed.

Global Instance desc_id_total : Total desc_id.
Proof. unfold desc_id. intros a b. lia. Qed.

Lemma annotate_rating_titles ts rs : (annotate_rating ts rs).*1 = ts.
Proof.
  unfold annotate_rating. rewrite <- list_fmap_compose.
  etrans; [| apply list_fmap_id]. apply list_fmap_ext.
  intros i t _. reflexivity.
Qed.

(** C10: whatever the store holds and whatever the filter keeps, the title
    list comes in descending order of id: every title is followed only by
    titles of an id that is not larger; and the titles listed are the
    titles of the store that the filter accepts, each once. *)
Theorem title_list_descending_id (TitleFilter : Title → bool) (st : Store) :
  StronglySorted (λ a b, title_id b.1 ≤ title_id a.1)%nat
    (TitleViewSet.list TitleFilter st)
  ∧ (TitleViewSet.list TitleFilter st).*1
    ≡ₚ filter (λ t, TitleFilter t = true) (titles st).
Proof.
  split.
  - apply StronglySorted_filter.
    apply (StronglySorted_merge_sort desc_id).
  - unfold TitleViewSet.list, TitleViewSet.queryset, order_by_desc_id.
    rewrite merge_sort_Permutation.
    rewrite <- (annotate_rating_titles (titles st) (reviews st)) at 2.
    generalize (annotate_rating (titles st) (reviews st)). intros rows.
    induction rows as [| row rows IH]; [reflexivity |].
    rewrite fmap_cons, !filter_cons.
    destruct (decide (TitleFilter row.1 = true)); csimpl; by rewrite IH.
Qed.

(** ** Token issuance *)

Lemma NoDup_fmap_eq {A B} (f : A → B) (l : list A) x y :
  NoDup (f <$> l) → x ∈ l → y ∈ l → f x = f y → x = y.
Proof.
  induction l as [| z l IH]; intros Hnd Hx Hy Hf;
    [by apply elem_of_nil in Hx |].
  rewrite fmap_cons in Hnd. apply NoDup_cons in Hnd as [Hz Hnd].
  apply elem_of_cons in Hx as [-> | Hx];
    apply elem_of_cons in Hy as [-> | Hy]; [done | | | by apply IH].
  - exfalso. apply Hz. rewrite Hf. apply list_elem_of_fmap. eauto.
  - exfalso. apply Hz. rewrite <- Hf. apply list_elem_of_fmap. eauto.
Qed.

Section token.
Context (st : Store) (request : Request) (n c : string).
Hypothesis Hunique : NoDup (username <$> users st).
Hypothesis Hname : data request !! "username" = Some (VStr n).
Hypothesis Hcode : data request !! "confirmation_code" = Some (VStr c).

Lemma token_post_valid_pair u :
  u ∈ users st → username u = n → confirmation_code u = c →
  CustomJWTTokenView.post request st
  = Ok {| status := HTTP_200_OK;
          body := {[ "Token" := VToken (user_id u) ]} |}.
Proof.
  intros Hin Hn Hc.
  unfold CustomJWTTokenView.post, CustomJWTTokenView.post_with,
    CustomJWTTokenView.subscript, GetJWTTokenSerializer.is_valid.
  rewrite Hname, Hcode, bool_decide_eq_true_2
    by (apply Exists_exists; eauto).
  cbn.
  rewrite (objects_get_unique _ username (users st) u);
    [reflexivity | done | done | by rewrite Hn |].
  intros y Hy. congruence.
Qed.

Lemma token_post_no_pair :
  ¬ Exists (λ u, username u = n ∧ confirmation_code u = c) (users st) →
  CustomJWTTokenView.post request st = Raise ValidationError.
Proof.
  intros Hno.
  unfold CustomJWTTokenView.post, CustomJWTTokenView.post_with,
    GetJWTTokenSerializer.is_valid.
  rewrite Hname, Hcode, bool_decide_eq_false_2 by exact Hno.
  reflexivity.
Qed.

Lemma token_post_unknown_user is_valid resp :
  n ∉ username <$> users st →
  CustomJWTTokenView.post_with is_valid request st ≠ Ok resp.
Proof.
  intros Hunknown.
  unfold CustomJWTTokenView.post_with, CustomJWTTokenView.subscript.
  destruct (is_valid (data request) st) as [[] | e]; [| discriminate].
  rewrite Hname. cbn. rewrite objects_get_none; [discriminate |].
  apply Forall_forall. intros u Hin Hu. apply Hunknown.
  injection Hu as ->. apply list_elem_of_fmap. eauto.
Qed.
End token.

(** C7: with a username and a confirmation code in the request, the token
    view answers 200 with a token for the user when the pair is that of a
    user; it fails, issuing nothing, when the code is not the code of the
    named user and when no user has the name (whatever the serializer
    accepts, since the user lookup fails); and every failure is the same
    validation error, so it does not tell which of the two was wrong. *)
Theorem token_issuance (st : Store) (request : Request) (n c : string) :
  NoDup (username <$> users st) →
  data request !! "username" = Some (VStr n) →
  data request !! "confirmation_code" = Some (VStr c) →
  (∀ u, u ∈ users st → username u = n →
     (confirmation_code u = c →
      CustomJWTTokenView.post request st
      = Ok {| status := HTTP_200_OK;
              body := {[ "Token" := VToken (user_id u) ]} |})
     ∧ (confirmation_code u ≠ c →
        CustomJWTTokenView.post request st = Raise ValidationError))
  ∧ (n ∉ username <$> users st →
     CustomJWTTokenView.post request st = Raise ValidationError
     ∧ ∀ is_valid resp,
         CustomJWTTokenView.post_with is_valid request st ≠ Ok resp)
  ∧ (∀ e, CustomJWTTokenView.post request st = Raise e →
          e = ValidationError).
Proof.
  intros Hnd Hname Hcode. split; [| split].
  - intros u Hin Hn. split.
    + by apply (token_post_valid_pair st request n c Hnd Hname Hcode).
    + intros Hc. apply (token_post_no_pair st request n c Hname Hcode).
      intros (u' & Hin' & Hn' & Hc')%Exists_exists.
      apply Hc. rewrite <- Hc'. f_equal.
      apply (NoDup_fmap_eq username (users st)); congruence.
  - intros Hunknown. split.
    + apply (token_post_no_pair st request n c Hname Hcode).
      intros (u' & Hin' & Hn' & _)%Exists_exists.
      apply Hunknown, list_elem_of_fmap. eauto.
    + intros is_valid resp.
      by apply (token_post_unknown_user st request n Hname).
  - intros e He.
    destruct (decide (Exists (λ u, username u = n ∧ confirmation_code u = c)
                             (users st))) as [Hex | Hno].
    + apply Exists_exists in Hex as (u & Hin & Hn & Hc).
      rewrite (token_post_valid_pair st request n c Hnd Hname Hcode u)
        in He by done.
      discriminate He.
    + rewrite (token_post_no_pair st request n c Hname Hcode Hno) in He.
      congruence.
Qed.

Lemma token_issuance_witness :
  let ann := {| user_id := 7; username := "ann"; email := "ann@example.com";
                role := regular; confirmation_code := "abc" |} in
  let st := {| users := [ann]; titles := []; reviews := []; comments := [];
               outbox := [] |} in
  let ask c := {| method := POST; user := None;
                  data := {[ "username" := VStr "ann";
                             "confirmation_code" := VStr c ]} |} in
  CustomJWTTokenView.post (ask "abc") st
  = Ok {| status := 200; body := {[ "Token" := VToken 7 ]} |}
  ∧ CustomJWTTokenView.post (ask "xyz") st = Raise ValidationError.
Proof.
  intros ann st ask.
  assert (Hnd : NoDup (username <$> users st)) by by_decide.
  assert (Hin : ann ∈ users st) by by_decide.
  destruct (token_issuance st (ask "abc") "ann" "abc" Hnd eq_refl eq_refl)
    as (Hgood & _).
  destruct (token_issuance st (ask "xyz") "ann" "xyz" Hnd eq_refl eq_refl)
    as (Hbad & _).
  split.
  - apply (Hgood ann Hin eq_refl). reflexivity.
  - apply (Hbad ann Hin eq_refl). discriminate.
Defined.

(** ** Registration *)

Section registration.
Context (n e : string).

Local Abbreviation compatible := (CreateUserSerializer.compatible n e).
Local Abbreviation recode := (CreateUserSerializer.recode n e).




End registration.




(** * Further properties of the views *)

(** ** Reviews and comments under their parents *)

Lemma next_id_fresh ids : next_id ids ∉ ids.
Proof. apply max_list_not_elem_of_gt. unfold next_id. lia. Qed.

Lemma review_perform_create_inv kwargs request vd st r st' :
  ReviewViewSet.perform_create kwargs request vd st = Ok (r, st') →
  st' = add_review r st
  ∧ review_id r = next_id (review_id <$> reviews st)
  ∧ ∃ t, t ∈ titles st ∧ kwargs !! "title_id" = Some (title_id t)
         ∧ review_title r = title_id t.
Proof.
  unfold ReviewViewSet.perform_create.
  destruct (get_object_or_404 _ (titles st)) as [t | e] eqn:Ht;
    [| discriminate].
  apply get_object_or_404_Ok in Ht as [Hin Hid]. cbn.
  unfold Serializer_save, Review_objects_create.
  repeat case_match; try discriminate.
  intros [= <- <-]. repeat split; try reflexivity.
  exists t. repeat split; try done.
  edestruct (save_kwargs_first _ vd "author"
               (user_value (user request)) "title" (VTitle t) eq_refl)
    as [_ Htitle]; [done |].
  cbn. congruence.
Qed.

Lemma comment_perform_create_inv kwargs request vd st c st' :
  CommentViewSet.perform_create kwargs request vd st = Ok (c, st') →
  st' = add_comment c st
  ∧ comment_id c = next_id (comment_id <$> comments st)
  ∧ ∃ rv, rv ∈ reviews st ∧ CommentViewSet.scoped kwargs rv
          ∧ comment_review c = review_id rv.
Proof.
  unfold CommentViewSet.perform_create.
  destruct (get_object_or_404 _ (reviews st)) as [rv | e] eqn:Hr;
    [| discriminate].
  apply get_object_or_404_Ok in Hr as [Hin Hsc]. cbn.
  unfold Serializer_save, Comment_objects_create.
  repeat case_match; try discriminate.
  intros [= <- <-]. repeat split; try reflexivity.
  exists rv. repeat split; try done; try apply Hsc.
  edestruct (save_kwargs_first _ vd "author"
               (user_value (user request)) "review" (VReview rv) eq_refl)
    as [_ Hreview]; [done |].
  cbn. congruence.
Qed.

(** X1: [get_queryset] and [perform_create] of reviews, with a path that
    names no title of the store (the [title_id] key is missing, or it is a
    number the database can hold and no title has that id), end with the
    not-found error. *)
Theorem review_unknown_title_is_not_found
    (kwargs : gmap string nat) (st : Store) :
  (kwargs !! "title_id" = None
   ∨ ∃ i, kwargs !! "title_id" = Some i
          ∧ (Z.of_nat i < 2 ^ 63)%Z
          ∧ i ∉ title_id <$> titles st) →
  ReviewViewSet.get_queryset kwargs st = Raise Http404
  ∧ ∀ request validated_data,
      ReviewViewSet.perform_create kwargs request validated_data st
      = Raise Http404.
Proof.
  intros Hno.
  assert (H404 : get_object_or_404
                   (λ t, kwargs !! "title_id" = Some (title_id t)) (titles st)
                 = Raise Http404).
  { apply get_object_or_404_none, Forall_forall. intros t Hin Hid.
    destruct Hno as [Hnone | (i & Hi & _ & Hfresh)]; [congruence |].
    apply Hfresh. rewrite Hid in Hi. injection Hi as <-.
    apply list_elem_of_fmap. eauto. }
  unfold ReviewViewSet.get_queryset, ReviewViewSet.perform_create.
  rewrite H404. split; reflexivity.
Qed.

Lemma review_unknown_title_is_not_found_witness :
  ReviewViewSet.get_queryset ∅
    {| users := []; titles := [{| title_id := 1; title_name := "A" |}];
       reviews := []; comments := []; outbox := [] |}
  = Raise Http404
  ∧ ReviewViewSet.get_queryset {[ "title_id" := 4 ]}
      {| users := []; titles := [{| title_id := 1; title_name := "A" |}];
         reviews := []; comments := []; outbox := [] |}
    = Raise Http404.
Proof.
  split.
  - apply review_unknown_title_is_not_found. left. reflexivity.
  - apply review_unknown_title_is_not_found. right. exists 4.
    split; [reflexivity | split; [lia | by_decide]].
Defined.

(** X2: for a path that names a title of the store, ids being unique, the
    review queryset is exactly the reviews of that title, in the order of
    the store: no review of another title is ever returned and none of the
    title is left out. *)
Theorem review_queryset_scoped
    (kwargs : gmap string nat) (st : Store) (t : Title) :
  NoDup (title_id <$> titles st) → t ∈ titles st →
  kwargs !! "title_id" = Some (title_id t) →
  ∃ l, ReviewViewSet.get_queryset kwargs st = Ok l
       ∧ (∀ r, r ∈ l ↔ r ∈ reviews st ∧ review_title r = title_id t)
       ∧ l `sublist_of` reviews st.
Proof.
  intros Hnd Hin Hid. unfold ReviewViewSet.get_queryset.
  rewrite (get_object_or_404_unique _ title_id (titles st) t);
    [| done | done | done | intros y Hy; congruence].
  cbn. eexists. split; [reflexivity |]. split.
  - intros r. rewrite list_elem_of_filter. tauto.
  - apply sublist_filter.
Qed.

Lemma review_queryset_scoped_witness :
  let r1 := {| review_id := 1; review_title := 1; review_author := 7;
               review_text := "good"; review_rating := 8 |} in
  let r2 := {| review_id := 2; review_title := 2; review_author := 7;
               review_text := "bad"; review_rating := 2 |} in
  let st := {| users := [];
               titles := [{| title_id := 1; title_name := "A" |};
                          {| title_id := 2; title_name := "B" |}];
               reviews := [r1; r2]; comments := []; outbox := [] |} in
  ∃ l, ReviewViewSet.get_queryset {[ "title_id" := 2 ]} st = Ok l
       ∧ r1 ∉ l.
Proof.
  intros r1 r2 st.
  destruct (review_queryset_scoped {[ "title_id" := 2 ]} st
              {| title_id := 2; title_name := "B" |})
    as (l & Hl & Hscope & _); [by_decide | by_decide | reflexivity |].
  exists l. split; [exact Hl |].
  intros [_ Ht]%Hscope. discriminate Ht.
Defined.

(** X3: for a path whose review id and title id are those of one review of
    the store, ids being unique, the comment queryset is exactly the
    comments of that review, in the order of the store. *)
Theorem comment_queryset_scoped
    (kwargs : gmap string nat) (st : Store) (rv : Review) :
  NoDup (review_id <$> reviews st) → rv ∈ reviews st →
  kwargs !! "review_id" = Some (review_id rv) →
  kwargs !! "title_id" = Some (review_title rv) →
  ∃ l, CommentViewSet.get_queryset kwargs st = Ok l
       ∧ (∀ c, c ∈ l ↔ c ∈ comments st ∧ comment_review c = review_id rv)
       ∧ l `sublist_of` comments st.
Proof.
  intros Hnd Hin Hid Ht. unfold CommentViewSet.get_queryset.
  rewrite (get_object_or_404_unique _ review_id (reviews st) rv);
    [| done | done | done | intros y [Hy _]; congruence].
  cbn. eexists. split; [reflexivity |]. split.
  - intros c. rewrite list_elem_of_filter. tauto.
  - apply sublist_filter.
Qed.

Lemma comment_queryset_scoped_witness :
  let rv := {| review_id := 5; review_title := 1; review_author := 7;
               review_text := "good"; review_rating := 8 |} in
  let c1 := {| comment_id := 1; comment_review := 5; comment_author := 9;
               comment_text := "agreed" |} in
  let c2 := {| comment_id := 2; comment_review := 6; comment_author := 9;
               comment_text := "no" |} in
  let st := {| users := []; titles := []; reviews := [rv];
               comments := [c1; c2]; outbox := [] |} in
  ∃ l, CommentViewSet.get_queryset
         {[ "title_id" := 1; "review_id" := 5 ]} st = Ok l
       ∧ c1 ∈ l ∧ c2 ∉ l.
Proof.
  intros rv c1 c2 st.
  destruct (comment_queryset_scoped {[ "title_id" := 1; "review_id" := 5 ]}
              st rv)
    as (l & Hl & Hscope & _);
    [by_decide | by_decide | reflexivity | reflexivity |].
  exists l. split; [exact Hl |]. split.
  - apply Hscope. split; [by_decide | reflexivity].
  - intros [_ Hc]%Hscope. discriminate Hc.
Defined.

(** X4: a review that was created under a title is read back under that
    title, after the reviews it had before, and the review lists of every
    other title are what they were. *)
Theorem review_create_then_list
    (kwargs : gmap string nat) (request : Request)
    (validated_data : gmap string Value) (st st' : Store) (r : Review) :
  ReviewViewSet.perform_create kwargs request validated_data st
  = Ok (r, st') →
  (∃ old, ReviewViewSet.get_queryset kwargs st = Ok old
          ∧ ReviewViewSet.get_queryset kwargs st' = Ok (old ++ [r])%list)
  ∧ ∀ kwargs' : gmap string nat,
      kwargs' !! "title_id" ≠ kwargs !! "title_id" →
      ReviewViewSet.get_queryset kwargs' st'
      = ReviewViewSet.get_queryset kwargs' st.
Proof.
  intros Hok.
  destruct (review_perform_create_inv _ _ _ _ _ _ Hok)
    as (-> & _ & t & Hin & Hid & Ht).
  split.
  - revert Hok.
    unfold ReviewViewSet.perform_create, ReviewViewSet.get_queryset. cbn.
    destruct (get_object_or_404 _ (titles st)) as [t0 | e] eqn:Hlookup;
      [| discriminate].
    intros _. cbn. eexists. split; [reflexivity |].
    apply get_object_or_404_Ok in Hlookup as [_ Hid0].
    rewrite filter_app, filter_cons_True, filter_nil; [reflexivity |].
    rewrite Hid in Hid0. congruence.
  - intros kwargs' Hne. unfold ReviewViewSet.get_queryset. cbn.
    destruct (get_object_or_404 _ (titles st)) as [t0 | e] eqn:Hlookup;
      [| reflexivity].
    cbn. apply get_object_or_404_Ok in Hlookup as [_ Hid0].
    rewrite filter_app, filter_cons_False, filter_nil, app_nil_r;
      [reflexivity |].
    intros Heq. apply Hne. rewrite Hid0, Hid. congruence.
Qed.

Lemma review_create_then_list_witness :
  let ann := {| user_id := 7; username := "ann"; email := "ann@example.com";
                role := regular; confirmation_code := "c" |} in
  let st := {| users := [ann];
               titles := [{| title_id := 1; title_name := "A" |}];
               reviews := []; comments := []; outbox := [] |} in
  let body : gmap string Value :=
    {[ "text" := VStr "good"; "rating" := VInt 9 ]} in
  let r := {| review_id := 1; review_title := 1; review_author := 7;
              review_text := "good"; review_rating := 9 |} in
  ReviewViewSet.get_queryset {[ "title_id" := 1 ]} (add_review r st)
  = Ok [r].
Proof.
  intros ann st body r.
  assert (Hok : ReviewViewSet.perform_create {[ "title_id" := 1 ]}
                  {| method := POST; user := Some ann; data := body |}
                  body st
                = Ok (r, add_review r st)) by (vm_compute; reflexivity).
  destruct (review_create_then_list _ _ _ _ _ _ Hok)
    as [(old & Hold & Hnew) _].
  injection Hold as <-. exact Hnew.
Defined.

(** X5: a comment that was created under a review is read back under that
    review, after the comments it had before, and the comment lists of
    every other review are what they were. *)
Theorem comment_create_then_list
    (kwargs : gmap string nat) (request : Request)
    (validated_data : gmap string Value) (st st' : Store) (c : Comment) :
  CommentViewSet.perform_create kwargs request validated_data st
  = Ok (c, st') →
  (∃ old, CommentViewSet.get_queryset kwargs st = Ok old
          ∧ CommentViewSet.get_queryset kwargs st' = Ok (old ++ [c])%list)
  ∧ ∀ kwargs' : gmap string nat,
      kwargs' !! "review_id" ≠ kwargs !! "review_id" →
      CommentViewSet.get_queryset kwargs' st'
      = CommentViewSet.get_queryset kwargs' st.
Proof.
  intros Hok.
  destruct (comment_perform_create_inv _ _ _ _ _ _ Hok)
    as (-> & _ & rv & Hin & [Hid Ht] & Hc).
  split.
  - revert Hok.
    unfold CommentViewSet.perform_create, CommentViewSet.get_queryset. cbn.
    destruct (get_object_or_404 _ (reviews st)) as [rv0 | e] eqn:Hlookup;
      [| discriminate].
    intros _. cbn. eexists. split; [reflexivity |].
    apply get_object_or_404_Ok in Hlookup as [_ [Hid0 _]].
    rewrite filter_app, filter_cons_True, filter_nil; [reflexivity |].
    rewrite Hid in Hid0. congruence.
  - intros kwargs' Hne. unfold CommentViewSet.get_queryset. cbn.
    destruct (get_object_or_404 _ (reviews st)) as [rv0 | e] eqn:Hlookup;
      [| reflexivity].
    cbn. apply get_object_or_404_Ok in Hlookup as [_ [Hid0 _]].
    rewrite filter_app, filter_cons_False, filter_nil, app_nil_r;
      [reflexivity |].
    intros Heq. apply Hne. rewrite Hid0, Hid. congruence.
Qed.

Lemma comment_create_then_list_witness :
  let ann := {| user_id := 7; username := "ann"; email := "ann@example.com";
                role := regular; confirmation_code := "c" |} in
  let rv := {| review_id := 5; review_title := 1; review_author := 7;
               review_text := "good"; review_rating := 8 |} in
  let st := {| users := [ann]; titles := []; reviews := [rv];
               comments := []; outbox := [] |} in
  let body : gmap string Value := {[ "text" := VStr "agreed" ]} in
  let c := {| comment_id := 1; comment_review := 5; comment_author := 7;
              comment_text := "agreed" |} in
  CommentViewSet.get_queryset {[ "title_id" := 1; "review_id" := 5 ]}
    (add_comment c st)
  = Ok [c].
Proof.
  intros ann rv st body c.
  assert (Hok : CommentViewSet.perform_create
                  {[ "title_id" := 1; "review_id" := 5 ]}
                  {| method := POST; user := Some ann; data := body |}
                  body st
                = Ok (c, add_comment c st)) by (vm_compute; reflexivity).
  destruct (comment_create_then_list _ _ _ _ _ _ Hok)
    as [(old & Hold & Hnew) _].
  injection Hold as <-. exact Hnew.
Defined.

(** X6: creating a review or a comment changes its own table only: users,
    titles, the other table and the mail outbox are untouched, the new row
    gets an id no row of the table has, and unique ids stay unique. *)
Theorem create_keeps_other_tables
    (kwargs : gmap string nat) (request : Request)
    (validated_data : gmap string Value) (st : Store) :
  (∀ r st',
     ReviewViewSet.perform_create kwargs request validated_data st
     = Ok (r, st') →
     users st' = users st ∧ titles st' = titles st
     ∧ comments st' = comments st ∧ outbox st' = outbox st
     ∧ (review_id r ∉ review_id <$> reviews st)
     ∧ (NoDup (review_id <$> reviews st) →
        NoDup (review_id <$> reviews st')))
  ∧ (∀ c st',
       CommentViewSet.perform_create kwargs request validated_data st
       = Ok (c, st') →
       users st' = users st ∧ titles st' = titles st
       ∧ reviews st' = reviews st ∧ outbox st' = outbox st
       ∧ (comment_id c ∉ comment_id <$> comments st)
       ∧ (NoDup (comment_id <$> comments st) →
          NoDup (comment_id <$> comments st'))).
Proof.
  split.
  - intros r st' (-> & Hid & _)%review_perform_create_inv.
    assert (Hfresh : review_id r ∉ review_id <$> reviews st)
      by (rewrite Hid; apply next_id_fresh).
    repeat split; try done.
    intros Hnd. cbn. rewrite fmap_app. apply NoDup_app.
    repeat split; [done | | apply NoDup_singleton].
    intros x Hx ->%list_elem_of_singleton. exact (Hfresh Hx).
  - intros c st' (-> & Hid & _)%comment_perform_create_inv.
    assert (Hfresh : comment_id c ∉ comment_id <$> comments st)
      by (rewrite Hid; apply next_id_fresh).
    repeat split; try done.
    intros Hnd. cbn. rewrite fmap_app. apply NoDup_app.
    repeat split; [done | | apply NoDup_singleton].
    intros x Hx ->%list_elem_of_singleton. exact (Hfresh Hx).
Qed.

Lemma create_keeps_other_tables_witness :
  let ann := {| user_id := 7; username := "ann"; email := "ann@example.com";
                role := regular; confirmation_code := "c" |} in
  let st := {| users := [ann];
               titles := [{| title_id := 1; title_name := "A" |}];
               reviews := []; comments := []; outbox := [] |} in
  let body : gmap string Value :=
    {[ "text" := VStr "good"; "rating" := VInt 9 ]} in
  let r := {| review_id := 1; review_title := 1; review_author := 7;
              review_text := "good"; review_rating := 9 |} in
  users (add_review r st) = [ann] ∧ outbox (add_review r st) = [].
Proof.
  intros ann st body r.
  assert (Hok : ReviewViewSet.perform_create {[ "title_id" := 1 ]}
                  {| method := POST; user := Some ann; data := body |}
                  body st
                = Ok (r, add_review r st)) by (vm_compute; reflexivity).
  destruct (create_keeps_other_tables {[ "title_id" := 1 ]}
              {| method := POST; user := Some ann; data := body |}
              body st) as [Hreview _].
  destruct (Hreview r (add_review r st) Hok) as (Hu & _ & _ & Ho & _).
  exact (conj Hu Ho).
Defined.

(** ** Ratings *)

(** X7: once a review is created, the title list shows its title with the
    mean, in double arithmetic, of the earlier ratings and the new one, and
    every other title with the rating it had. *)
Theorem rating_after_new_review
    (kwargs : gmap string nat) (request : Request)
    (validated_data : gmap string Value) (st st' : Store) (r : Review)
    (TitleFilter : Title → bool) (t : Title) :
  NoDup (title_id <$> titles st) →
  ReviewViewSet.perform_create kwargs request validated_data st
  = Ok (r, st') →
  exact_sum (ratings_of t st') →
  t ∈ titles st → TitleFilter t = true →
  (t, float_mean
        (ratings_of t st ++
         (if decide (review_title r = title_id t)
          then [review_rating r] else []))%list)
  ∈ TitleViewSet.list TitleFilter st'.
Proof.
  intros Hnd (-> & _)%review_perform_create_inv _ Hin Hflt.
  apply elem_of_title_list. split; [exact Hflt |].
  apply elem_of_annotate_rating; [exact Hnd |].
  split; [exact Hin |]. cbn. unfold ratings_of.
  rewrite filter_app, fmap_app, filter_cons, filter_nil.
  by destruct (decide (review_title r = title_id t)).
Qed.

Lemma rating_after_new_review_witness :
  let ann := {| user_id := 7; username := "ann"; email := "ann@example.com";
                role := regular; confirmation_code := "c" |} in
  let t1 := {| title_id := 1; title_name := "A" |} in
  let st := {| users := [ann]; titles := [t1];
               reviews := []; comments := []; outbox := [] |} in
  let body : gmap string Value :=
    {[ "text" := VStr "good"; "rating" := VInt 9 ]} in
  let r := {| review_id := 1; review_title := 1; review_author := 7;
              review_text := "good"; review_rating := 9 |} in
  (t1, float_mean [9%Z]) ∈ TitleViewSet.list (λ _, true) (add_review r st).
Proof.
  intros ann t1 st body r.
  assert (Hok : ReviewViewSet.perform_create {[ "title_id" := 1 ]}
                  {| method := POST; user := Some ann; data := body |}
                  body st
                = Ok (r, add_review r st)) by (vm_compute; reflexivity).
  apply (rating_after_new_review _ _ _ st (add_review r st) r (λ _, true) t1
           ltac:(by_decide) Hok ltac:(vm_compute; reflexivity)
           ltac:(by_decide) eq_refl).
Defined.

(** ** The token view, whatever its serializer *)

(** X9: whatever validation the serializer class does, the token view
    answers with a token only when the validation passed and the text of
    the request's username (a string, or a number in its decimal writing)
    is the name of a user of the store, and the token is that user's; with
    unique names it does answer so whenever the validation passes for the
    name of a user. The view itself never looks at the confirmation code,
    and a body that passed validation without a username ends in
    [KeyError]. *)
Theorem token_only_for_named_user
    (is_valid : gmap string Value → Store → Result ())
    (request : Request) (st : Store) :
  (∀ resp,
     CustomJWTTokenView.post_with is_valid request st = Ok resp →
     is_valid (data request) st = Ok ()
     ∧ ∃ v u, data request !! "username" = Some v
              ∧ u ∈ users st
              ∧ text_of v = Some (username u)
              ∧ resp = {| status := HTTP_200_OK;
                          body := {[ "Token" := VToken (user_id u) ]} |})
  ∧ (∀ v u, NoDup (username <$> users st) →
            is_valid (data request) st = Ok () →
            data request !! "username" = Some v →
            u ∈ users st →
            text_of v = Some (username u) →
            CustomJWTTokenView.post_with is_valid request st
            = Ok {| status := HTTP_200_OK;
                    body := {[ "Token" := VToken (user_id u) ]} |})
  ∧ (is_valid (data request) st = Ok () →
     data request !! "username" = None →
     CustomJWTTokenView.post_with is_valid request st = Raise KeyError).
Proof.
  unfold CustomJWTTokenView.post_with, CustomJWTTokenView.subscript.
  split; [| split].
  - intros resp.
    destruct (is_valid (data request) st) as [[] | e]; [| discriminate].
    destruct (data request !! "username") as [v |]; [| discriminate].
    cbn. destruct (objects_get _ (users st)) as [u | e] eqn:Hget;
      [| discriminate].
    apply objects_get_Ok in Hget as [Hin Hname]. cbn.
    intros [= <-]. split; [reflexivity |]. exists v, u. done.
  - intros v u Hnd -> -> Hin Hname. cbn.
    rewrite (objects_get_unique _ username (users st) u);
      [reflexivity | done | done | done |].
    intros y Hy. rewrite Hname in Hy. congruence.
  - intros -> ->. reflexivity.
Qed.

Lemma token_only_for_named_user_witness :
  let seven := {| user_id := 3; username := "7"; email := "7@example.com";
                  role := regular; confirmation_code := "abc" |} in
  let st := {| users := [seven]; titles := []; reviews := []; comments := [];
               outbox := [] |} in
  CustomJWTTokenView.post_with (λ _ _, Ok ())
    {| method := POST; user := None;
       data := {[ "username" := VInt 7 ]} |} st
  = Ok {| status := 200; body := {[ "Token" := VToken 3 ]} |}.
Proof.
  intros seven st.
  destruct (token_only_for_named_user (λ _ _, Ok ())
              {| method := POST; user := None;
                 data := {[ "username" := VInt 7 ]} |} st)
    as (_ & Hissue & _).
  apply (Hissue (VInt 7) seven);
    [by_decide | reflexivity | reflexivity | by_decide
    | vm_compute; reflexivity].
Defined.

(** X10: an error of the serializer is the error of the token view; and
    when the serializer accepts a name that no user has, the failed lookup
    leaves the view as [DoesNotExist], which is not one of the errors the
    framework answers as not-found or as a validation error. *)
Theorem token_view_errors
    (is_valid : gmap string Value → Store → Result ())
    (request : Request) (st : Store) :
  (∀ e, is_valid (data request) st = Raise e →
        CustomJWTTokenView.post_with is_valid request st = Raise e)
  ∧ (∀ n, is_valid (data request) st = Ok () →
          data request !! "username" = Some (VStr n) →
          n ∉ username <$> users st →
          CustomJWTTokenView.post_with is_valid request st
          = Raise DoesNotExist).
Proof.
  unfold CustomJWTTokenView.post_with, CustomJWTTokenView.subscript.
  split.
  - intros e ->. reflexivity.
  - intros n -> Hname Hunknown. rewrite Hname. cbn.
    rewrite objects_get_none; [reflexivity |].
    apply Forall_forall. intros u Hin Hu. apply Hunknown.
    injection Hu as ->. apply list_elem_of_fmap. eauto.
Qed.

Lemma token_view_errors_witness :
  CustomJWTTokenView.post_with (λ _ _, Ok ())
    {| method := POST; user := None;
       data := {[ "username" := VStr "zed" ]} |}
    {| users := []; titles := []; reviews := []; comments := [];
       outbox := [] |}
  = Raise DoesNotExist.
Proof.
  destruct (token_view_errors (λ _ _, Ok ())
              {| method := POST; user := None;
                 data := {[ "username" := VStr "zed" ]} |}
              {| users := []; titles := []; reviews := []; comments := [];
                 outbox := [] |})
    as [_ Hunknown].
  apply (Hunknown "zed"); [reflexivity | reflexivity | by_decide].
Defined.

(** ** Verbs of the other view sets *)

(** X12: the user and title view sets, model view sets with the default
    verbs, hand every routed verb to its action, the full replace PUT
    included (unlike reviews and comments), HEAD to the action of GET and
    OPTIONS to the metadata; TRACE and the unrouted pairs have no handler. *)
Theorem model_viewset_verbs
    (v : ViewSet) (k : Route) (m : Method) (a : Action) :
  v = UserViewSet.view ∨ v = TitleViewSet.view →
  (handler v k m = Some a
   ↔ (m = OPTIONS ∧ a = metadata)
     ∨ (m ≠ OPTIONS ∧ m ≠ HEAD ∧ route_mapping k m = Some a)
     ∨ (m = HEAD ∧ route_mapping k GET = Some a))
  ∧ handler v DetailRoute PUT = Some update.
Proof.
  intros [-> | ->]; (split; [| reflexivity]);
    destruct k, m; vm_compute;
    (split; [intros [= <-] | intros H]); naive_solver.
Qed.

Lemma model_viewset_verbs_witness :
  handler UserViewSet.view DetailRoute PUT = Some update.
Proof.
  apply (model_viewset_verbs UserViewSet.view DetailRoute PUT update).
  left. reflexivity.
Defined.

(** X13: on titles the serializer follows the verb, not the action: GET
    alone reads with [TitleSerializer], every handled write (create, update,
    partial update) goes through [TitleCreateSerializer], and so does a
    list or retrieve that is reached by HEAD. *)
Theorem title_serializer_by_method
    (request : Request) (k : Route) (a : Action) :
  handler TitleViewSet.view k (method request) = Some a →
  (TitleViewSet_get_serializer_class request = TitleSerializer
   ↔ method request = GET)
  ∧ (a ∈ [create; update; partial_update] →
     TitleViewSet_get_serializer_class request = TitleCreateSerializer)
  ∧ (method request = HEAD →
     a ∈ [list_action; retrieve]
     ∧ TitleViewSet_get_serializer_class request = TitleCreateSerializer).
Proof.
  destruct request as [m u d]. cbn. unfold TitleViewSet_get_serializer_class.
  cbn. intros Ha. split; [| split].
  - case_bool_decide as Hm; rewrite list_elem_of_singleton in Hm;
      split; try done.
  - intros Hin. rewrite !elem_of_cons, elem_of_nil in Hin.
    destruct k, m; vm_compute in Ha; try discriminate Ha;
      injection Ha as <-; try reflexivity; naive_solver.
  - intros ->. split; [| reflexivity].
    destruct k; vm_compute in Ha; injection Ha as <-; by_decide.
Qed.

Lemma title_serializer_by_method_witness :
  TitleViewSet_get_serializer_class
    {| method := HEAD; user := None; data := ∅ |} = TitleCreateSerializer.
Proof.
  apply (title_serializer_by_method
           {| method := HEAD; user := None; data := ∅ |} ListRoute
           list_action eq_refl).
  reflexivity.
Defined.

(** ** Users by name *)

(** X14: the user view set addresses users by [username]: a lookup that
    succeeds returns a user of the store whose name is the value of the
    path, every user is found under its name when names are unique, and a
    value that is no user's name (an id, an email) is not found. *)
Theorem user_lookup_by_username (st : Store) (value : Value) :
  (∀ u, UserViewSet_get_object st value = Ok u →
        u ∈ users st ∧ value = VStr (username u))
  ∧ (∀ u, NoDup (username <$> users st) → u ∈ users st →
          UserViewSet_get_object st (VStr (username u)) = Ok u)
  ∧ ((∀ u, u ∈ users st → value ≠ VStr (username u)) →
     UserViewSet_get_object st value = Raise Http404).
Proof.
  unfold UserViewSet_get_object, get_object. cbn. split; [| split].
  - intros u [Hin Hu]%get_object_or_404_Ok. split; [exact Hin |].
    by injection Hu as <-.
  - intros u Hnd Hin.
    apply (get_object_or_404_unique _ username (users st) u);
      [done | done | reflexivity |].
    intros y Hy. by injection Hy as ->.
  - intros Hno. apply get_object_or_404_none, Forall_forall.
    intros u Hin Hu. apply (Hno u Hin). by injection Hu as <-.
Qed.

Lemma user_lookup_by_username_witness :
  let ann := {| user_id := 7; username := "ann"; email := "ann@example.com";
                role := regular; confirmation_code := "abc" |} in
  let st := {| users := [ann]; titles := []; reviews := []; comments := [];
               outbox := [] |} in
  UserViewSet_get_object st (VStr "ann") = Ok ann
  ∧ UserViewSet_get_object st (VInt 7) = Raise Http404.
Proof.
  intros ann st.
  destruct (user_lookup_by_username st (VStr "ann")) as (_ & Hfound & _).
  destruct (user_lookup_by_username st (VInt 7)) as (_ & _ & Hmissing).
  split.
  - apply (Hfound ann); by_decide.
  - apply Hmissing. intros u _. discriminate.
Defined.

(** ** Categories and genres by slug *)

Section destroy.
Context {A : Type} (field_of : string → A → option Value)
  (pk : A → nat) (slug : A → string) (v : ViewSet).
Hypothesis Hfield :
  ∀ x, field_of (vs_lookup_field v) x = Some (VStr (slug x)).

Lemma destroy_row_found accepts rows x :
  NoDup (slug <$> rows) → NoDup (pk <$> rows) →
  x ∈ rows → accepts x = true →
  ∃ rest,
    destroy_row field_of pk v accepts rows (VStr (slug x)) = Ok rest
    ∧ (∀ y, y ∈ rest ↔ y ∈ rows ∧ y ≠ x)
    ∧ ∀ accepts',
        destroy_row field_of pk v accepts' rest (VStr (slug x))
        = Raise Http404.
Proof.
  intros Hslug Hpk Hin Hacc.
  assert (Hget : get_object field_of v
                   (filter (λ y, accepts y = true) rows) (VStr (slug x))
                 = Ok x).
  { unfold get_object, get_object_or_404, objects_get.
    rewrite list_filter_filter.
    rewrite (filter_unique _ slug rows x); [reflexivity | done | done | |].
    - split; [apply Hfield | exact Hacc].
    - intros y [Hy _]. rewrite Hfield in Hy. congruence. }
  assert (Hrest : ∀ y, y ∈ filter (λ y, pk y ≠ pk x) rows
                       ↔ y ∈ rows ∧ y ≠ x).
  { intros y. rewrite list_elem_of_filter. split.
    - intros [Hne Hy]. split; [exact Hy | congruence].
    - intros [Hy Hne]. split; [| exact Hy].
      intros Heq. apply Hne.
      by apply (NoDup_fmap_eq pk rows). }
  unfold destroy_row. rewrite Hget. cbn.
  eexists. split; [reflexivity |]. split; [exact Hrest |].
  intros accepts'. unfold get_object.
  rewrite get_object_or_404_none; [reflexivity |].
  apply Forall_forall.
  intros y [_ [Hy Hne]%Hrest]%list_elem_of_filter Hval.
  apply Hne. rewrite Hfield in Hval.
  apply (NoDup_fmap_eq slug rows); [done | done | done | congruence].
Qed.

Lemma destroy_row_missing accepts rows s :
  (∀ x, x ∈ rows → accepts x = true → slug x ≠ s) →
  destroy_row field_of pk v accepts rows (VStr s) = Raise Http404.
Proof.
  intros Hno. unfold destroy_row, get_object.
  rewrite get_object_or_404_none; [reflexivity |].
  apply Forall_forall. intros x [Hacc Hin]%list_elem_of_filter Hval.
  rewrite Hfield in Hval. apply (Hno x Hin Hacc). congruence.
Qed.
End destroy.

(** X15: categories and genres are deleted by slug. With unique slugs and
    ids, deleting the slug of a row the filter accepts removes that row and
    no other, and deleting the same slug again is not found; a slug that no
    accepted row has is not found and nothing is removed. *)
Theorem category_genre_destroy_by_slug :
  (∀ accepts (cats : list Category) c,
     NoDup (category_slug <$> cats) → NoDup (category_id <$> cats) →
     c ∈ cats → accepts c = true →
     ∃ rest,
       CategoryViewSet_destroy accepts cats (VStr (category_slug c))
       = Ok rest
       ∧ (∀ y, y ∈ rest ↔ y ∈ cats ∧ y ≠ c)
       ∧ ∀ accepts',
           CategoryViewSet_destroy accepts' rest (VStr (category_slug c))
           = Raise Http404)
  ∧ (∀ accepts (cats : list Category) s,
       (∀ c, c ∈ cats → accepts c = true → category_slug c ≠ s) →
       CategoryViewSet_destroy accepts cats (VStr s) = Raise Http404)
  ∧ (∀ accepts (gs : list Genre) g,
       NoDup (genre_slug <$> gs) → NoDup (genre_id <$> gs) →
       g ∈ gs → accepts g = true →
       ∃ rest,
         GenreViewSet_destroy accepts gs (VStr (genre_slug g)) = Ok rest
         ∧ (∀ y, y ∈ rest ↔ y ∈ gs ∧ y ≠ g)
         ∧ ∀ accepts',
             GenreViewSet_destroy accepts' rest (VStr (genre_slug g))
             = Raise Http404)
  ∧ (∀ accepts (gs : list Genre) s,
       (∀ g, g ∈ gs → accepts g = true → genre_slug g ≠ s) →
       GenreViewSet_destroy accepts gs (VStr s) = Raise Http404).
Proof.
  split; [| split; [| split]].
  - intros accepts cats c.
    by apply (destroy_row_found Category_field category_id category_slug).
  - intros accepts cats s.
    by apply (destroy_row_missing Category_field category_id category_slug).
  - intros accepts gs g.
    by apply (destroy_row_found Genre_field genre_id genre_slug).
  - intros accepts gs s.
    by apply (destroy_row_missing Genre_field genre_id genre_slug).
Qed.

Lemma category_genre_destroy_by_slug_witness :
  let drama := {| category_id := 1; category_name := "Drama";
                  category_slug := "drama" |} in
  let film := {| category_id := 2; category_name := "Film";
                 category_slug := "film" |} in
  ∃ rest,
    CategoryViewSet_destroy (λ _, true) [drama; film] (VStr "film") = Ok rest
    ∧ drama ∈ rest ∧ film ∉ rest.
Proof.
  intros drama film.
  destruct category_genre_destroy_by_slug as (Hfound & _).
  destruct (Hfound (λ _, true) [drama; film] film)
    as (rest & Hok & Hrest & _);
    [by_decide | by_decide | by_decide | reflexivity |].
  exists rest. split; [exact Hok |]. split.
  - apply Hrest. split; [by_decide | discriminate].
  - intros [_ Hne]%Hrest. by apply Hne.
Defined.
